(** * simple-portfolio: a shallow embedding of [src/index.ts]

    The module builds an in-memory portfolio (owner profile and a list of
    projects) and renders it as one HTML document.  This file embeds its
    five functions, [escapeHTML], [isValidURL], [createPortfolio],
    [addProject] and [generateHTML], and proves the properties its
    specification states about them.

    Modelling conventions.
    - A JavaScript string is a [string]; the five characters the program
      inspects are ASCII, so the encoding of the others plays no role.
    - A text that a caller may leave out, and that the program therefore
      tests ([!config.name], [!project.url], [project.imageUrl ? ... : ...],
      [config.theme || ...]), is an [option]: [None] is [undefined].  Calling
      [escapeHTML] on [undefined] raises the runtime's [TypeError].
    - The social links are the platform/url pairs of the object in property
      order, as [Object.entries] lists them; the declared type of a url is
      [string | undefined], so a url is an [option] as well.
    - [throw new Error(msg)] is the completion [Throw (Error msg)].
    - [addProject] mutates the portfolio it is given, so it is a computation
      over a store that holds that portfolio; the store survives a throw.
    - The platform's [URL] constructor is an interface ([Platform]). *)

From Stdlib Require Import String Ascii List Bool Lia.
Import ListNotations.
Open Scope list_scope.
Open Scope string_scope.

(** ** Strings as the program uses them *)

(** The double quote, which the templates of the program contain. *)
Definition dquote : ascii := ascii_of_nat 34.
Definition dq : string := String dquote EmptyString.
(** The line break inside a template literal. *)
Definition nl : string := String (ascii_of_nat 10) EmptyString.

(** [str.replace(/c/g, by)] for a pattern that is one literal character and
    a replacement without [$]: every occurrence of [c] becomes [by]. *)
Fixpoint replaceAll (c : ascii) (by_ : string) (str : string) : string :=
  match str with
  | EmptyString => EmptyString
  | String a rest =>
      if Ascii.eqb a c then by_ ++ replaceAll c by_ rest
      else String a (replaceAll c by_ rest)
  end.

(** [array.join(sep)]. *)
Definition join (sep : string) (parts : list string) : string :=
  String.concat sep parts.

(** [hay.includes(needle)]. *)
Fixpoint includes (needle hay : string) : bool :=
  String.prefix needle hay ||
  match hay with
  | EmptyString => false
  | String _ rest => includes needle rest
  end.

(** Truthiness of a value that is a string or [undefined]. *)
Definition truthy (v : option string) : bool :=
  match v with
  | Some (String _ _) => true
  | _ => false
  end.

(** Truthiness of a string. *)
Definition nonempty (s : string) : bool :=
  match s with
  | EmptyString => false
  | String _ _ => true
  end.

(** Interpolation [${v}] of a string or [undefined] in a template literal. *)
Definition toString (v : option string) : string :=
  match v with
  | Some s => s
  | None => "undefined"
  end.

(** ** escapeHTML (index.ts, lines 52-59) *)

Definition escapeHTML (str : string) : string :=
  replaceAll "'" "&#039;"
    (replaceAll dquote "&quot;"
       (replaceAll ">" "&gt;"
          (replaceAll "<" "&lt;"
             (replaceAll "&" "&amp;" str)))).

(** The entity the specification assigns to a character, and the character
    itself when it is none of the five. *)
Definition entity (a : ascii) : string :=
  if Ascii.eqb a "&" then "&amp;"
  else if Ascii.eqb a "<" then "&lt;"
  else if Ascii.eqb a ">" then "&gt;"
  else if Ascii.eqb a dquote then "&quot;"
  else if Ascii.eqb a "'" then "&#039;"
  else String a EmptyString.

(** The specification's reading of escaping: one pass over the input in
    which every character is replaced by its entity. *)
Fixpoint escape_one_pass (str : string) : string :=
  match str with
  | EmptyString => EmptyString
  | String a rest => entity a ++ escape_one_pass rest
  end.

(** ** Completions and the store *)

(** What a call can throw: [new Error(message)], or the [TypeError] that the
    runtime raises when a method is called on [undefined]. *)
Inductive exn : Type :=
| Error (message : string)
| TypeError.

(** How a call completes. *)
Inductive result (A : Type) : Type :=
| Ok (value : A)
| Throw (e : exn).
Arguments Ok {A} value.
Arguments Throw {A} e.

(** ** Data model (index.ts, lines 6-45) *)

Module Project.
Record t : Type := {
  id : option string;
  title : option string;
  description : option string;
  technologies : list string;
  url : option string;
  imageUrl : option string
}.
End Project.

Inductive Theme : Type := light | dark.

Module PortfolioConfig.
(** [socialLinks] is the list [Object.entries] returns for the object: its
    platform/url pairs in property order.  A property declared [github?:
    string] may be there and hold [undefined]; its pair then has the url
    [None]. *)
Record t : Type := {
  name : option string;
  title : option string;
  bio : option string;
  email : option string;
  socialLinks : option (list (string * option string));
  theme : option Theme
}.
End PortfolioConfig.

Module Portfolio.
Record t : Type := {
  config : option PortfolioConfig.t;
  projects : list Project.t
}.
End Portfolio.

(** A computation that may read and update the portfolio object it was given
    and completes normally or by a throw; the object is there afterwards in
    either case. *)
Definition M (A : Type) : Type := Portfolio.t -> Portfolio.t * result A.

Definition ret {A} (a : A) : M A := fun st => (st, Ok a).

Definition throw {A} (e : exn) : M A := fun st => (st, Throw e).

Definition bind {A B} (m : M A) (k : A -> M B) : M B :=
  fun st =>
    match m st with
    | (st', Ok a) => k a st'
    | (st', Throw e) => (st', Throw e)
    end.

Notation "x <- c1 ;; c2" := (bind c1 (fun x => c2))
  (at level 61, c1 at next level, right associativity).
Notation "c1 ;; c2" := (bind c1 (fun _ => c2))
  (at level 61, right associativity).

(** [if (cond) { throw ... }]. *)
Definition when (cond : bool) (m : M unit) : M unit :=
  if cond then m else ret tt.

(** [portfolio.projects.push(project)]. *)
Definition push (project : Project.t) : M unit :=
  fun st =>
    ({| Portfolio.config := Portfolio.config st;
        Portfolio.projects := (Portfolio.projects st ++ [project])%list |},
     Ok tt).

(** [list.map(f)] for a callback that may throw. *)
Fixpoint mapM {A B} (f : A -> M B) (l : list A) : M (list B) :=
  match l with
  | [] => ret []
  | a :: rest => b <- f a ;; bs <- mapM f rest ;; ret (b :: bs)
  end.

(** A template literal: its parts are evaluated from left to right and
    their strings concatenated. *)
Fixpoint template (parts : list (M string)) : M string :=
  match parts with
  | [] => ret EmptyString
  | part :: rest => s <- part ;; r <- template rest ;; ret (s ++ r)
  end.

(** A literal chunk of a template. *)
Definition lit (s : string) : M string := ret s.

(** [a === b] on values that are strings or [undefined]. *)
Definition strict_eq (a b : option string) : bool :=
  match a, b with
  | Some x, Some y => String.eqb x y
  | None, None => true
  | _, _ => false
  end.

(** ** isValidURL (index.ts, lines 66-73) *)

(** The platform's [URL] constructor: [new URL(text)] returns a URL object
    or throws. *)
Class Platform : Type := {
  URL : Type;
  URL_new : string -> option URL
}.

Definition isValidURL `{Platform} (url : string) : bool :=
  match URL_new url with
  | Some _ => true
  | None => false
  end.

(** ** createPortfolio (index.ts, lines 81-104) *)

(** [`${platform}: ${url}`]. *)
Definition link_report (entry : string * option string) : string :=
  let '(platform, url) := entry in platform ++ ": " ++ toString url.

Definition createPortfolio `{Platform} (config : PortfolioConfig.t)
  : result Portfolio.t :=
  if negb (truthy (PortfolioConfig.name config))
     || negb (truthy (PortfolioConfig.title config))
     || negb (truthy (PortfolioConfig.bio config))
     || negb (truthy (PortfolioConfig.email config))
  then
    Throw (Error
      "Portfolio requires name, title, bio, and email in configuration")
  else
    let created :=
      {| Portfolio.config := Some
           {| PortfolioConfig.name := PortfolioConfig.name config;
              PortfolioConfig.title := PortfolioConfig.title config;
              PortfolioConfig.bio := PortfolioConfig.bio config;
              PortfolioConfig.email := PortfolioConfig.email config;
              PortfolioConfig.socialLinks :=
                PortfolioConfig.socialLinks config;
              PortfolioConfig.theme := Some
                match PortfolioConfig.theme config with
                | Some theme => theme
                | None => light
                end |};
         Portfolio.projects := [] |} in
    match PortfolioConfig.socialLinks config with
    | Some links =>
        let invalidLinks :=
          map link_report
            (filter (fun '(_, url) =>
                       truthy url && negb (isValidURL (toString url)))
               links) in
        if Nat.ltb 0 (List.length invalidLinks)
        then Throw (Error
               ("Invalid URLs in social links: " ++ join ", " invalidLinks))
        else Ok created
    | None => Ok created
    end.

(** ** addProject (index.ts, lines 112-130) *)

Definition addProject `{Platform}
  (portfolio : Portfolio.t) (project : Project.t)
  : Portfolio.t * result unit :=
  (when (negb (truthy (Project.id project))
         || negb (truthy (Project.title project))
         || negb (truthy (Project.description project))
         || negb (truthy (Project.url project)))
     (throw (Error "Project requires id, title, description, and url")) ;;
   when (existsb (fun p => strict_eq (Project.id p) (Project.id project))
           (Portfolio.projects portfolio))
     (throw (Error ("Project with ID " ++ dq
                    ++ toString (Project.id project) ++ dq
                    ++ " already exists"))) ;;
   when (negb (isValidURL (toString (Project.url project))))
     (throw (Error ("Invalid URL in project " ++ dq
                    ++ toString (Project.title project) ++ dq ++ ": "
                    ++ toString (Project.url project)))) ;;
   when (truthy (Project.imageUrl project)
         && negb (isValidURL (toString (Project.imageUrl project))))
     (throw (Error ("Invalid image URL in project " ++ dq
                    ++ toString (Project.title project) ++ dq ++ ": "
                    ++ toString (Project.imageUrl project)))) ;;
   push project) portfolio.

(** ** generateHTML (index.ts, lines 138-195) *)

(** [${escapeHTML(v)}]: [escapeHTML] calls [v.replace], which throws a
    [TypeError] when [v] is [undefined]. *)
Definition esc (v : option string) : M string :=
  match v with
  | Some s => ret (escapeHTML s)
  | None => throw TypeError
  end.

Definition themeStyles (theme : option Theme) : string :=
  match theme with
  | Some dark => "body { background: #121212; color: #ffffff; }"
  | _ => "body { background: #ffffff; color: #000000; }"
  end.

(** The callback of [project.technologies.map]. *)
Definition techTag (tech : string) : string :=
  "<span class=" ++ dq ++ "tech-tag" ++ dq ++ ">" ++ escapeHTML tech
  ++ "</span>".

(** The callback of [portfolio.projects.map]. *)
Definition projectCard (project : Project.t) : M string :=
  template [
    lit (nl ++
      "      <div class=" ++ dq ++ "project-card" ++ dq ++ ">" ++ nl ++
      "        <h3>");
    esc (Project.title project);
    lit ("</h3>" ++ nl ++
      "        <p>");
    esc (Project.description project);
    lit ("</p>" ++ nl ++
      "        <div class=" ++ dq ++ "tech-list" ++ dq ++ ">");
    lit (join EmptyString (map techTag (Project.technologies project)));
    lit ("</div>" ++ nl ++
      "        <a href=" ++ dq);
    esc (Project.url project);
    lit (dq ++ " target=" ++ dq ++ "_blank" ++ dq ++ " rel=" ++ dq
      ++ "noopener noreferrer" ++ dq ++ ">View Project</a>" ++ nl ++
      "        ");
    (if truthy (Project.imageUrl project)
     then template [
            lit ("<img src=" ++ dq);
            esc (Project.imageUrl project);
            lit (dq ++ " alt=" ++ dq);
            esc (Project.title project);
            lit (dq ++ ">") ]
     else lit EmptyString);
    lit (nl ++
      "      </div>" ++ nl ++
      "    ") ].

(** The callback of [Object.entries(portfolio.config.socialLinks).map]. *)
Definition socialLink (entry : string * option string) : M string :=
  let '(platform, url) := entry in
  template [
    lit ("<a href=" ++ dq);
    esc url;
    lit (dq ++ " class=" ++ dq ++ "social-link" ++ dq ++ " rel=" ++ dq
      ++ "noopener noreferrer" ++ dq ++ ">");
    lit (escapeHTML platform);
    lit "</a>" ].

Definition generateHTML (portfolio : Portfolio.t)
  : Portfolio.t * result string :=
  (when (match Portfolio.config portfolio with
         | Some _ => false
         | None => true
         end
         || Nat.eqb (List.length (Portfolio.projects portfolio)) 0)
     (throw (Error "Cannot generate HTML for empty portfolio")) ;;
   match Portfolio.config portfolio with
   | None => throw TypeError
   | Some config =>
       let themeStyles := themeStyles (PortfolioConfig.theme config) in
       cards <- mapM projectCard (Portfolio.projects portfolio) ;;
       let projectCards := join EmptyString cards in
       socialLinks <-
         match PortfolioConfig.socialLinks config with
         | Some links =>
             anchors <- mapM socialLink links ;;
             ret (join EmptyString anchors)
         | None => ret EmptyString
         end ;;
       template [
         lit ("<!DOCTYPE html>" ++ nl ++
           "<html lang=" ++ dq ++ "en" ++ dq ++ ">" ++ nl ++
           "<head>" ++ nl ++
           "  <meta charset=" ++ dq ++ "UTF-8" ++ dq ++ ">" ++ nl ++
           "  <meta name=" ++ dq ++ "viewport" ++ dq ++ " content=" ++ dq
             ++ "width=device-width, initial-scale=1.0" ++ dq ++ ">" ++ nl ++
           "  <title>");
         esc (PortfolioConfig.name config);
         lit " - ";
         esc (PortfolioConfig.title config);
         lit ("</title>" ++ nl ++
           "  <style>" ++ nl ++
           "    ");
         lit themeStyles;
         lit (nl ++
           "    body { font-family: system-ui, sans-serif; padding: 2rem; max-width: 1000px; margin: auto; }" ++ nl ++
           "    h1, h2 { color: #1a73e8; }" ++ nl ++
           "    .project-card { border: 1px solid #ccc; padding: 1rem; margin: 1rem 0; border-radius: 8px; }" ++ nl ++
           "    .tech-tag { background: #eee; padding: 0.3rem 0.6rem; margin: 0.3rem; border-radius: 4px; }" ++ nl ++
           "    .social-link { margin: 0 0.5rem; color: inherit; text-decoration: none; }" ++ nl ++
           "  </style>" ++ nl ++
           "</head>" ++ nl ++
           "<body>" ++ nl ++
           "  <header>" ++ nl ++
           "    <h1>");
         esc (PortfolioConfig.name config);
         lit ("</h1>" ++ nl ++
           "    <h2>");
         esc (PortfolioConfig.title config);
         lit ("</h2>" ++ nl ++
           "    <p>");
         esc (PortfolioConfig.bio config);
         lit ("</p>" ++ nl ++
           "    <p>Email: <a href=" ++ dq ++ "mailto:");
         esc (PortfolioConfig.email config);
         lit (dq ++ ">");
         esc (PortfolioConfig.email config);
         lit ("</a></p>" ++ nl ++
           "    <div>");
         lit socialLinks;
         lit ("</div>" ++ nl ++
           "  </header>" ++ nl ++
           "  <main>" ++ nl ++
           "    <h2>Projects</h2>" ++ nl ++
           "    ");
         lit projectCards;
         lit (nl ++
           "  </main>" ++ nl ++
           "</body>" ++ nl ++
           "</html>") ]
   end) portfolio.

(** ** The vocabulary of the specification *)

(** A required text is missing: the property is absent or is the empty
    string. *)
Definition absent_or_empty (v : option string) : Prop :=
  v = None \/ v = Some EmptyString.

(** A required text is there: the property holds a non-empty string. *)
Definition nonempty_text (v : option string) : Prop :=
  exists text, v = Some text /\ text <> EmptyString.

Definition config_has_required (config : PortfolioConfig.t) : Prop :=
  nonempty_text (PortfolioConfig.name config)
  /\ nonempty_text (PortfolioConfig.title config)
  /\ nonempty_text (PortfolioConfig.bio config)
  /\ nonempty_text (PortfolioConfig.email config).

Definition config_lacks_required (config : PortfolioConfig.t) : Prop :=
  absent_or_empty (PortfolioConfig.name config)
  \/ absent_or_empty (PortfolioConfig.title config)
  \/ absent_or_empty (PortfolioConfig.bio config)
  \/ absent_or_empty (PortfolioConfig.email config).

Definition project_lacks_required (project : Project.t) : Prop :=
  absent_or_empty (Project.id project)
  \/ absent_or_empty (Project.title project)
  \/ absent_or_empty (Project.description project)
  \/ absent_or_empty (Project.url project).

(** The id of [project] already occurs in the portfolio. *)
Definition duplicate_id (portfolio : Portfolio.t) (project : Project.t)
  : Prop :=
  exists p, In p (Portfolio.projects portfolio)
            /\ Project.id p = Project.id project.

(** The value is a string that the URL parser rejects. *)
Definition fails_isValidURL `{Platform} (v : option string) : Prop :=
  exists text, v = Some text /\ isValidURL text = false.

(** The value is a non-empty string that the URL parser rejects. *)
Definition present_and_fails_isValidURL `{Platform} (v : option string)
  : Prop :=
  exists text,
    v = Some text /\ text <> EmptyString /\ isValidURL text = false.

(** The social links a failing [createPortfolio] has to report: the entries
    whose url is not empty and is rejected by the URL parser. *)
Definition offending_links `{Platform}
  (links : list (string * option string)) : list (string * option string) :=
  filter (fun entry =>
            match snd entry with
            | Some url =>
                negb (String.eqb url EmptyString) && negb (isValidURL url)
            | None => false
            end)
    links.

(** The portfolio conforms to its declared types: every property declared
    [string] holds a string. *)
Definition typed_project (project : Project.t) : Prop :=
  Project.id project <> None /\ Project.title project <> None
  /\ Project.description project <> None /\ Project.url project <> None.

Definition typed_config (config : PortfolioConfig.t) : Prop :=
  PortfolioConfig.name config <> None
  /\ PortfolioConfig.title config <> None
  /\ PortfolioConfig.bio config <> None
  /\ PortfolioConfig.email config <> None.

Definition typed_portfolio (portfolio : Portfolio.t) : Prop :=
  (forall config, Portfolio.config portfolio = Some config ->
                  typed_config config)
  /\ Forall typed_project (Portfolio.projects portfolio).

(** The portfolios the interface builds: [createPortfolio] followed by calls
    of [addProject], each of which succeeds or throws.  The second index
    lists the projects of the calls that succeeded, in call order. *)
Inductive built `{Platform} : Portfolio.t -> list Project.t -> Prop :=
| built_create config portfolio :
    createPortfolio config = Ok portfolio ->
    built portfolio []
| built_add portfolio accepted project portfolio' :
    built portfolio accepted ->
    addProject portfolio project = (portfolio', Ok tt) ->
    built portfolio' (accepted ++ [project])%list
| built_reject portfolio accepted project portfolio' e :
    built portfolio accepted ->
    addProject portfolio project = (portfolio', Throw e) ->
    built portfolio' accepted.

(** *** The document as a layout of texts

    The same document with nothing escaped: the texts are placed in the
    markup as they are.  Rendering is then stated as this layout applied to
    the escaped texts. *)

Definition tag_layout (tech : string) : string :=
  "<span class=" ++ dq ++ "tech-tag" ++ dq ++ ">" ++ tech ++ "</span>".

Definition image_layout (imageUrl : option string) (title : string)
  : string :=
  match imageUrl with
  | Some (String a rest) =>
      ("<img src=" ++ dq) ++ String a rest ++ (dq ++ " alt=" ++ dq) ++ title
      ++ (dq ++ ">")
  | _ => EmptyString
  end.

Definition card_layout (title description : string)
  (technologies : list string) (url : string) (imageUrl : option string)
  : string :=
  (nl ++
   "      <div class=" ++ dq ++ "project-card" ++ dq ++ ">" ++ nl ++
   "        <h3>") ++ title ++
  ("</h3>" ++ nl ++
   "        <p>") ++ description ++
  ("</p>" ++ nl ++
   "        <div class=" ++ dq ++ "tech-list" ++ dq ++ ">") ++
  join EmptyString (map tag_layout technologies) ++
  ("</div>" ++ nl ++
   "        <a href=" ++ dq) ++ url ++
  (dq ++ " target=" ++ dq ++ "_blank" ++ dq ++ " rel=" ++ dq
   ++ "noopener noreferrer" ++ dq ++ ">View Project</a>" ++ nl ++
   "        ") ++
  image_layout imageUrl title ++
  (nl ++
   "      </div>" ++ nl ++
   "    ").

Definition link_layout (entry : string * string) : string :=
  let '(platform, url) := entry in
  "<a href=" ++ dq ++ url ++ dq ++ " class=" ++ dq
  ++ "social-link" ++ dq ++ " rel=" ++ dq ++ "noopener noreferrer" ++ dq
  ++ ">" ++ platform ++ "</a>".

Definition page_layout (name title style bio email links cards : string)
  : string :=
  ("<!DOCTYPE html>" ++ nl ++
   "<html lang=" ++ dq ++ "en" ++ dq ++ ">" ++ nl ++
   "<head>" ++ nl ++
   "  <meta charset=" ++ dq ++ "UTF-8" ++ dq ++ ">" ++ nl ++
   "  <meta name=" ++ dq ++ "viewport" ++ dq ++ " content=" ++ dq
     ++ "width=device-width, initial-scale=1.0" ++ dq ++ ">" ++ nl ++
   "  <title>") ++ name ++ " - " ++ title ++
  ("</title>" ++ nl ++
   "  <style>" ++ nl ++
   "    ") ++ style ++
  (nl ++
   "    body { font-family: system-ui, sans-serif; padding: 2rem; max-width: 1000px; margin: auto; }" ++ nl ++
   "    h1, h2 { color: #1a73e8; }" ++ nl ++
   "    .project-card { border: 1px solid #ccc; padding: 1rem; margin: 1rem 0; border-radius: 8px; }" ++ nl ++
   "    .tech-tag { background: #eee; padding: 0.3rem 0.6rem; margin: 0.3rem; border-radius: 4px; }" ++ nl ++
   "    .social-link { margin: 0 0.5rem; color: inherit; text-decoration: none; }" ++ nl ++
   "  </style>" ++ nl ++
   "</head>" ++ nl ++
   "<body>" ++ nl ++
   "  <header>" ++ nl ++
   "    <h1>") ++ name ++
  ("</h1>" ++ nl ++
   "    <h2>") ++ title ++
  ("</h2>" ++ nl ++
   "    <p>") ++ bio ++
  ("</p>" ++ nl ++
   "    <p>Email: <a href=" ++ dq ++ "mailto:") ++ email ++
  (dq ++ ">") ++ email ++
  ("</a></p>" ++ nl ++
   "    <div>") ++ links ++
  ("</div>" ++ nl ++
   "  </header>" ++ nl ++
   "  <main>" ++ nl ++
   "    <h2>Projects</h2>" ++ nl ++
   "    ") ++ cards ++
  (nl ++
   "  </main>" ++ nl ++
   "</body>" ++ nl ++
   "</html>").

Definition layout_card (project : Project.t) : result string :=
  match Project.title project, Project.description project,
        Project.url project with
  | Some title, Some description, Some url =>
      Ok (card_layout title description (Project.technologies project) url
            (Project.imageUrl project))
  | _, _, _ => Throw TypeError
  end.

Fixpoint layout_cards (projects : list Project.t) : result (list string) :=
  match projects with
  | [] => Ok []
  | project :: rest =>
      match layout_card project with
      | Ok card =>
          match layout_cards rest with
          | Ok cards => Ok (card :: cards)
          | Throw e => Throw e
          end
      | Throw e => Throw e
      end
  end.

Definition layout_link (entry : string * option string) : result string :=
  match snd entry with
  | Some url => Ok (link_layout (fst entry, url))
  | None => Throw TypeError
  end.

Fixpoint layout_links (links : list (string * option string))
  : result (list string) :=
  match links with
  | [] => Ok []
  | entry :: rest =>
      match layout_link entry with
      | Ok anchor =>
          match layout_links rest with
          | Ok anchors => Ok (anchor :: anchors)
          | Throw e => Throw e
          end
      | Throw e => Throw e
      end
  end.

Definition layout_social
  (socialLinks : option (list (string * option string))) : result string :=
  match socialLinks with
  | Some links =>
      match layout_links links with
      | Ok anchors => Ok (join EmptyString anchors)
      | Throw e => Throw e
      end
  | None => Ok EmptyString
  end.

Definition layout (portfolio : Portfolio.t) : result string :=
  match Portfolio.config portfolio, Portfolio.projects portfolio with
  | None, _ | _, [] => Throw (Error "Cannot generate HTML for empty portfolio")
  | Some config, projects =>
      match layout_cards projects with
      | Throw e => Throw e
      | Ok cards =>
          match layout_social (PortfolioConfig.socialLinks config) with
          | Throw e => Throw e
          | Ok links =>
              match PortfolioConfig.name config, PortfolioConfig.title config,
                    PortfolioConfig.bio config,
                    PortfolioConfig.email config with
              | Some name, Some title, Some bio, Some email =>
                  Ok (page_layout name title
                        (themeStyles (PortfolioConfig.theme config)) bio email
                        links (join EmptyString cards))
              | _, _, _, _ => Throw TypeError
              end
          end
      end
  end.

(** Every user-supplied text of a portfolio passed through [escapeHTML]. *)
Definition escapeProject (project : Project.t) : Project.t :=
  {| Project.id := Project.id project;
     Project.title := option_map escapeHTML (Project.title project);
     Project.description :=
       option_map escapeHTML (Project.description project);
     Project.technologies := map escapeHTML (Project.technologies project);
     Project.url := option_map escapeHTML (Project.url project);
     Project.imageUrl := option_map escapeHTML (Project.imageUrl project) |}.

Definition escapeLink (entry : string * option string)
  : string * option string :=
  let '(platform, url) := entry in
  (escapeHTML platform, option_map escapeHTML url).

Definition escapeConfig (config : PortfolioConfig.t) : PortfolioConfig.t :=
  {| PortfolioConfig.name :=
       option_map escapeHTML (PortfolioConfig.name config);
     PortfolioConfig.title :=
       option_map escapeHTML (PortfolioConfig.title config);
     PortfolioConfig.bio :=
       option_map escapeHTML (PortfolioConfig.bio config);
     PortfolioConfig.email :=
       option_map escapeHTML (PortfolioConfig.email config);
     PortfolioConfig.socialLinks :=
       option_map
         (map escapeLink) (PortfolioConfig.socialLinks config);
     PortfolioConfig.theme := PortfolioConfig.theme config |}.

Definition escapePortfolio (portfolio : Portfolio.t) : Portfolio.t :=
  {| Portfolio.config := option_map escapeConfig (Portfolio.config portfolio);
     Portfolio.projects := map escapeProject (Portfolio.projects portfolio) |}.

(** The document of a portfolio that renders, for concrete runs. *)
Definition document (portfolio : Portfolio.t) : string :=
  match snd (generateHTML portfolio) with
  | Ok html => html
  | Throw _ => EmptyString
  end.

(** Every [<] of the string is followed, inside the string, by two
    characters that are not [sc]: no piece of it can open a [<script>] tag,
    alone or glued to what follows it. *)
Fixpoint opens_no_script (s : string) : bool :=
  match s with
  | EmptyString => true
  | String a rest =>
      (if Ascii.eqb a "<" then
         match rest with
         | String b (String c _) => negb (Ascii.eqb b "s" && Ascii.eqb c "c")
         | _ => false
         end
       else true)
      && opens_no_script rest
  end.

(** ** Sample data for concrete runs *)

(** A platform for the runs below.  Its URL constructor accepts the absolute
    URLs listed here and throws on any other text; the runs hand it these,
    the empty string, [not a url] and [nope], which a URL parser rejects as
    well. *)
Definition known_urls : list string :=
  [ "https://example.com"; "https://project.com";
    "https://github.com/alice"; "https://image.com/p.jpg" ].

Definition sample_platform : Platform :=
  {| URL := string;
     URL_new := fun text =>
       if existsb (String.eqb text) known_urls then Some text else None |}.

Definition alice : PortfolioConfig.t :=
  {| PortfolioConfig.name := Some "Alice";
     PortfolioConfig.title := Some "Developer";
     PortfolioConfig.bio := Some "Full stack developer";
     PortfolioConfig.email := Some "alice@example.com";
     PortfolioConfig.socialLinks :=
       Some [("github", Some "https://github.com/alice")];
     PortfolioConfig.theme := Some dark |}.

Definition test_project : Project.t :=
  {| Project.id := Some "1";
     Project.title := Some "Test Project";
     Project.description := Some "A sample project";
     Project.technologies := ["React"; "TypeScript"];
     Project.url := Some "https://project.com";
     Project.imageUrl := Some "https://image.com/p.jpg" |}.

Definition script_project : Project.t :=
  {| Project.id := Some "2";
     Project.title := Some "<script>";
     Project.description := Some "a & b";
     Project.technologies := [];
     Project.url := Some "https://example.com";
     Project.imageUrl := None |}.

(** The test suite's project without description and url. *)
Definition incomplete_project : Project.t :=
  {| Project.id := Some "2";
     Project.title := Some "Incomplete";
     Project.description := None;
     Project.technologies := ["HTML"];
     Project.url := None;
     Project.imageUrl := None |}.

(** A project that takes the id of [test_project] and whose urls do not
    parse either. *)
Definition duplicate_project : Project.t :=
  {| Project.id := Some "1";
     Project.title := Some "Duplicate";
     Project.description := Some "Duplicate ID";
     Project.technologies := ["JavaScript"];
     Project.url := Some "not a url";
     Project.imageUrl := Some "nope" |}.

(** A project whose url does not parse, and one whose image url does not. *)
Definition bad_url_project : Project.t :=
  {| Project.id := Some "3";
     Project.title := Some "Broken";
     Project.description := Some "Its link does not parse";
     Project.technologies := [];
     Project.url := Some "not a url";
     Project.imageUrl := Some "nope" |}.

Definition bad_image_project : Project.t :=
  {| Project.id := Some "4";
     Project.title := Some "Picture";
     Project.description := Some "Its image link does not parse";
     Project.technologies := [];
     Project.url := Some "https://example.com";
     Project.imageUrl := Some "nope" |}.

(** The test suite's configuration that gives no theme. *)
Definition john : PortfolioConfig.t :=
  {| PortfolioConfig.name := Some "John Doe";
     PortfolioConfig.title := Some "Web Developer";
     PortfolioConfig.bio := Some "A passionate developer";
     PortfolioConfig.email := Some "john@example.com";
     PortfolioConfig.socialLinks := None;
     PortfolioConfig.theme := None |}.

(** The test suite's configuration without an email. *)
Definition no_email : PortfolioConfig.t :=
  {| PortfolioConfig.name := Some "Test";
     PortfolioConfig.title := Some "Title";
     PortfolioConfig.bio := Some "Bio";
     PortfolioConfig.email := None;
     PortfolioConfig.socialLinks := None;
     PortfolioConfig.theme := None |}.

(** [alice] with two links that do not parse and one that is empty. *)
Definition bad_links : PortfolioConfig.t :=
  {| PortfolioConfig.name := Some "Alice";
     PortfolioConfig.title := Some "Developer";
     PortfolioConfig.bio := Some "Full stack developer";
     PortfolioConfig.email := Some "alice@example.com";
     PortfolioConfig.socialLinks :=
       Some [("github", Some "not a url"); ("linkedin", Some EmptyString);
             ("twitter", Some "nope")];
     PortfolioConfig.theme := None |}.

(** Three portfolios that hold [alice] (whose theme is given, so that it is
    stored as it is). *)
Definition alice_empty : Portfolio.t :=
  {| Portfolio.config := Some alice; Portfolio.projects := [] |}.

Definition alice_one : Portfolio.t :=
  {| Portfolio.config := Some alice;
     Portfolio.projects := [test_project] |}.

Definition alice_two : Portfolio.t :=
  {| Portfolio.config := Some alice;
     Portfolio.projects := [test_project; script_project] |}.

(** ** Further vocabulary *)

(** The four characters that can open or close markup or an attribute. *)
Definition markup_char (a : ascii) : bool :=
  Ascii.eqb a "<" || Ascii.eqb a ">" || Ascii.eqb a dquote || Ascii.eqb a "'".

(** The five characters [escapeHTML] looks for. *)
Definition special_char (a : ascii) : bool :=
  Ascii.eqb a "&" || markup_char a.

(** Every character of the string satisfies [P]. *)
Fixpoint all_chars (P : ascii -> bool) (s : string) : bool :=
  match s with
  | EmptyString => true
  | String a rest => P a && all_chars P rest
  end.

(** The string holds none of the five characters. *)
Definition plain_text (s : string) : bool :=
  all_chars (fun a => negb (special_char a)) s.

(** What [addProject] has checked of a project it stored: the four required
    texts are non-empty, the url parses, and so does the image url unless it
    is absent or empty. *)
Definition accepted_project `{Platform} (project : Project.t) : Prop :=
  ~ project_lacks_required project
  /\ (exists url, Project.url project = Some url /\ isValidURL url = true)
  /\ (forall image, Project.imageUrl project = Some image ->
                    image <> EmptyString -> isValidURL image = true).

(** What [createPortfolio] has checked of a configuration it stored, and the
    theme it resolved. *)
Definition accepted_config `{Platform} (config : PortfolioConfig.t) : Prop :=
  config_has_required config
  /\ (forall links platform url,
         PortfolioConfig.socialLinks config = Some links ->
         In (platform, Some url) links -> url <> EmptyString ->
         isValidURL url = true)
  /\ PortfolioConfig.theme config <> None.

(** A second sample project with an id of its own. *)
Definition other_project : Project.t :=
  {| Project.id := Some "5";
     Project.title := Some "Other";
     Project.description := Some "Another project";
     Project.technologies := ["Rocq"];
     Project.url := Some "https://example.com";
     Project.imageUrl := Some EmptyString |}.

(** A portfolio object without a configuration, which the guard of
    [generateHTML] provides for. *)
Definition no_config : Portfolio.t :=
  {| Portfolio.config := None; Portfolio.projects := [test_project] |}.

(** Two projects show the same in a document: they agree on everything but
    the id. *)
Definition same_but_id (a b : Project.t) : Prop :=
  Project.title a = Project.title b
  /\ Project.description a = Project.description b
  /\ Project.technologies a = Project.technologies b
  /\ Project.url a = Project.url b
  /\ Project.imageUrl a = Project.imageUrl b.

(** [alice_one] with another id for its project. *)
Definition alice_one_renumbered : Portfolio.t :=
  {| Portfolio.config := Some alice;
     Portfolio.projects :=
       [ {| Project.id := Some "42";
            Project.title := Some "Test Project";
            Project.description := Some "A sample project";
            Project.technologies := ["React"; "TypeScript"];
            Project.url := Some "https://project.com";
            Project.imageUrl := Some "https://image.com/p.jpg" |} ] |}.

(** [alice] with [other_project], which has an empty image url, as her only
    project. *)
Definition alice_other : Portfolio.t :=
  {| Portfolio.config := Some alice; Portfolio.projects := [other_project] |}.

(** Every [<] of the string is followed, inside the string, by a character
    other than [b]: no piece of it can open a tag whose name starts with
    [b], alone or glued to what follows it. *)
Fixpoint opens_no_tag (b : ascii) (s : string) : bool :=
  match s with
  | EmptyString => true
  | String a rest =>
      (if Ascii.eqb a "<" then
         match rest with
         | String c _ => negb (Ascii.eqb c b)
         | EmptyString => false
         end
       else true)
      && opens_no_tag b rest
  end.

(** Every social link that is there holds a string. *)
Definition links_defined (config : PortfolioConfig.t) : Prop :=
  forall links platform url,
    PortfolioConfig.socialLinks config = Some links ->
    In (platform, url) links -> url <> None.

(** [alice] with a social link that is there and holds [undefined], which
    the declared type [github?: string] admits, and the portfolios built on
    it. *)
Definition undefined_link : PortfolioConfig.t :=
  {| PortfolioConfig.name := Some "Alice";
     PortfolioConfig.title := Some "Developer";
     PortfolioConfig.bio := Some "Full stack developer";
     PortfolioConfig.email := Some "alice@example.com";
     PortfolioConfig.socialLinks := Some [("github", None)];
     PortfolioConfig.theme := Some light |}.

Definition undefined_link_empty : Portfolio.t :=
  {| Portfolio.config := Some undefined_link; Portfolio.projects := [] |}.

Definition undefined_link_one : Portfolio.t :=
  {| Portfolio.config := Some undefined_link;
     Portfolio.projects := [test_project] |}.

(** The portfolio object at some later time: after any number of further
    [addProject] calls, whatever their projects and however they
    complete. *)
Inductive later `{Platform} : Portfolio.t -> Portfolio.t -> Prop :=
| later_now portfolio : later portfolio portfolio
| later_call portfolio portfolio' project :
    later portfolio portfolio' ->
    later portfolio (fst (addProject portfolio' project)).

(** ** Facts about strings *)

Lemma append_assoc (a b c : string) : (a ++ b) ++ c = a ++ (b ++ c).
Proof. induction a as [|x a IH]; simpl; [reflexivity | now rewrite IH]. Qed.

Lemma append_empty_r (a : string) : a ++ EmptyString = a.
Proof. induction a as [|x a IH]; simpl; [reflexivity | now rewrite IH]. Qed.

Lemma replaceAll_app c r a b :
  replaceAll c r (a ++ b) = replaceAll c r a ++ replaceAll c r b.
Proof.
  induction a as [|x a IH]; simpl; [reflexivity|].
  destruct (Ascii.eqb x c); rewrite IH; simpl;
    [now rewrite append_assoc | reflexivity].
Qed.

Lemma replaceAll_cons_other c r a s :
  Ascii.eqb a c = false ->
  replaceAll c r (String a s) = String a (replaceAll c r s).
Proof. intros E; simpl; now rewrite E. Qed.

(** One step of [escapeHTML]: the five replacements, run one after the
    other, treat the first character as the single pass does. *)
Lemma escapeHTML_cons a s :
  escapeHTML (String a s) = entity a ++ escapeHTML s.
Proof.
  unfold escapeHTML, entity.
  destruct (Ascii.eqb a "&") eqn:E1.
  { apply Ascii.eqb_eq in E1; subst a.
    change (replaceAll "&" "&amp;" (String "&" s))
      with ("&amp;" ++ replaceAll "&" "&amp;" s).
    now rewrite !replaceAll_app. }
  rewrite (replaceAll_cons_other "&" _ a s E1).
  destruct (Ascii.eqb a "<") eqn:E2.
  { apply Ascii.eqb_eq in E2; subst a.
    set (t := replaceAll "&" "&amp;" s).
    change (replaceAll "<" "&lt;" (String "<" t))
      with ("&lt;" ++ replaceAll "<" "&lt;" t).
    now rewrite !replaceAll_app. }
  rewrite (replaceAll_cons_other "<" _ a _ E2).
  destruct (Ascii.eqb a ">") eqn:E3.
  { apply Ascii.eqb_eq in E3; subst a.
    set (t := replaceAll "<" "&lt;" _).
    change (replaceAll ">" "&gt;" (String ">" t))
      with ("&gt;" ++ replaceAll ">" "&gt;" t).
    now rewrite !replaceAll_app. }
  rewrite (replaceAll_cons_other ">" _ a _ E3).
  destruct (Ascii.eqb a dquote) eqn:E4.
  { apply Ascii.eqb_eq in E4; subst a.
    set (t := replaceAll ">" "&gt;" _).
    change (replaceAll dquote "&quot;" (String dquote t))
      with ("&quot;" ++ replaceAll dquote "&quot;" t).
    now rewrite !replaceAll_app. }
  rewrite (replaceAll_cons_other dquote _ a _ E4).
  destruct (Ascii.eqb a "'") eqn:E5.
  { apply Ascii.eqb_eq in E5; subst a. reflexivity. }
  now rewrite (replaceAll_cons_other "'" _ a _ E5).
Qed.

(** C8. For every input string, [escapeHTML] (five replacements in the fixed
    order &, <, >, double quote, apostrophe) returns the string in which each
    of the five characters is replaced by its entity and nothing else changes;
    an ampersand that a replacement introduced is not escaped again, so
    [escapeHTML "<"] is [&lt;] and not [&amp;lt;].  The function is total: it
    is defined on every string and has no failing completion. *)
Theorem escapeHTML_replaces_five_characters :
  (forall str, escapeHTML str = escape_one_pass str) /\
  entity "&" = "&amp;" /\ entity "<" = "&lt;" /\ entity ">" = "&gt;" /\
  entity dquote = "&quot;" /\ entity "'" = "&#039;" /\
  (forall a, a <> "&"%char -> a <> "<"%char -> a <> ">"%char ->
             a <> dquote -> a <> "'"%char -> entity a = String a EmptyString) /\
  escapeHTML "<" = "&lt;" /\ escapeHTML "<" <> "&amp;lt;".
Proof.
  split.
  { induction str as [|a s IH]; [reflexivity|].
    rewrite escapeHTML_cons. simpl. now rewrite IH. }
  repeat split; try reflexivity; try discriminate.
  intros a H1 H2 H3 H4 H5. unfold entity.
  repeat match goal with
         | |- context [Ascii.eqb a ?c] =>
             destruct (Ascii.eqb_spec a c); [congruence|]
         end.
  reflexivity.
Qed.

(** ** Facts about [includes] *)

Lemma prefix_append a b : String.prefix a (a ++ b) = true.
Proof.
  induction a as [|x a IH]; simpl; [now destruct b|].
  destruct (ascii_dec x x); [exact IH | congruence].
Qed.

Lemma prefix_append_l x a b :
  String.prefix x a = true -> String.prefix x (a ++ b) = true.
Proof.
  revert a; induction x as [|c x IH]; intros a Hp.
  - now destruct (a ++ b).
  - destruct a as [|d a]; simpl in *; [discriminate|].
    destruct (ascii_dec c d); [now apply IH | discriminate].
Qed.

Lemma includes_cons x a s :
  includes x s = true -> includes x (String a s) = true.
Proof. intros Hs. simpl. rewrite Hs. apply orb_true_r. Qed.

Lemma includes_prefix x s :
  String.prefix x s = true -> includes x s = true.
Proof.
  intros Hp. destruct s;
    change (String.prefix x EmptyString || false = true) +
    change (String.prefix x (String a s) || includes x s = true);
    now rewrite Hp.
Qed.

Lemma includes_here x b : includes x (x ++ b) = true.
Proof. apply includes_prefix, prefix_append. Qed.

Lemma includes_append_r x a b :
  includes x b = true -> includes x (a ++ b) = true.
Proof.
  intros Hb. induction a as [|c a IH]; simpl; [exact Hb|].
  rewrite IH. apply orb_true_r.
Qed.

Lemma includes_append_l x a b :
  includes x a = true -> includes x (a ++ b) = true.
Proof.
  induction a as [|c a IH]; intros Ha.
  - destruct x; [now destruct b | simpl in Ha; discriminate].
  - change (String.prefix x (String c a) || includes x a = true) in Ha.
    apply orb_true_iff in Ha as [Ha|Ha].
    + apply (prefix_append_l x (String c a) b) in Ha.
      change (String.prefix x (String c a ++ b)
              || includes x (a ++ b) = true).
      now rewrite Ha.
    + change (includes x (String c (a ++ b)) = true).
      apply includes_cons. now apply IH.
Qed.

Lemma includes_join x sep parts :
  In x parts -> includes x (join sep parts) = true.
Proof.
  unfold join. induction parts as [|y parts IH]; intros Hin; [destruct Hin|].
  destruct parts as [|z parts].
  - destruct Hin as [->|[]]. simpl.
    rewrite <- (append_empty_r x) at 2. apply includes_here.
  - change (String.concat sep (y :: z :: parts))
      with (y ++ sep ++ String.concat sep (z :: parts)).
    destruct Hin as [->|Hin]; [apply includes_here|].
    apply includes_append_r, includes_append_r, IH, Hin.
Qed.

(** ** Truthiness *)

Lemma truthy_false v : truthy v = false <-> absent_or_empty v.
Proof.
  unfold absent_or_empty. destruct v as [[|a s]|]; simpl; split;
    intros Hv; auto; try discriminate; destruct Hv; discriminate.
Qed.

Lemma truthy_true v : truthy v = true <-> nonempty_text v.
Proof.
  unfold nonempty_text. destruct v as [[|a s]|]; simpl; split; intros Hv;
    try discriminate; auto.
  - destruct Hv as (text & [= <-] & Hne). now elim Hne.
  - exists (String a s). split; [reflexivity | discriminate].
  - destruct Hv as (text & [=] & _).
Qed.

Lemma config_check_true config :
  negb (truthy (PortfolioConfig.name config))
  || negb (truthy (PortfolioConfig.title config))
  || negb (truthy (PortfolioConfig.bio config))
  || negb (truthy (PortfolioConfig.email config)) = true
  <-> config_lacks_required config.
Proof.
  unfold config_lacks_required.
  rewrite !orb_true_iff, !negb_true_iff, !truthy_false. tauto.
Qed.

Lemma config_check_false config :
  negb (truthy (PortfolioConfig.name config))
  || negb (truthy (PortfolioConfig.title config))
  || negb (truthy (PortfolioConfig.bio config))
  || negb (truthy (PortfolioConfig.email config)) = false
  <-> config_has_required config.
Proof.
  unfold config_has_required.
  rewrite !orb_false_iff, !negb_false_iff, !truthy_true. tauto.
Qed.

(** ** createPortfolio *)

(** The filter of the program keeps exactly the offending links. *)
Lemma invalid_filter `{Platform} links :
  filter (fun '(_, url) => truthy url && negb (isValidURL (toString url)))
    links
  = offending_links links.
Proof.
  unfold offending_links. apply filter_ext. intros [platform [[|a url]|]];
    reflexivity.
Qed.

Lemma offending_links_spec `{Platform} links platform url :
  In (platform, Some url) (offending_links links)
  <-> In (platform, Some url) links /\ url <> EmptyString
      /\ isValidURL url = false.
Proof.
  unfold offending_links. rewrite filter_In. simpl.
  rewrite andb_true_iff, !negb_true_iff, String.eqb_neq. tauto.
Qed.

(** A link that holds [undefined] is never among the offending ones. *)
Lemma offending_links_defined `{Platform} links platform :
  ~ In (platform, None) (offending_links links).
Proof.
  unfold offending_links. rewrite filter_In. simpl. intros [_ [=]].
Qed.

Lemma offending_links_cases `{Platform} links platform value :
  In (platform, value) (offending_links links) ->
  exists url, value = Some url.
Proof.
  destruct value as [url|]; [now exists url|].
  intros Hin. now apply offending_links_defined in Hin.
Qed.

(** The portfolio that a successful [createPortfolio] returns. *)
Lemma createPortfolio_Ok `{Platform} config portfolio :
  createPortfolio config = Ok portfolio ->
  config_has_required config
  /\ Portfolio.projects portfolio = []
  /\ exists stored,
      Portfolio.config portfolio = Some stored
      /\ PortfolioConfig.name stored = PortfolioConfig.name config
      /\ PortfolioConfig.title stored = PortfolioConfig.title config
      /\ PortfolioConfig.bio stored = PortfolioConfig.bio config
      /\ PortfolioConfig.email stored = PortfolioConfig.email config
      /\ PortfolioConfig.socialLinks stored
         = PortfolioConfig.socialLinks config
      /\ PortfolioConfig.theme stored
         = Some match PortfolioConfig.theme config with
                | Some theme => theme
                | None => light
                end.
Proof.
  unfold createPortfolio.
  destruct (negb (truthy (PortfolioConfig.name config)) || _ || _ || _)
    eqn:Hreq; [discriminate|].
  apply config_check_false in Hreq. intros Hok.
  assert (portfolio =
    {| Portfolio.config := Some
         {| PortfolioConfig.name := PortfolioConfig.name config;
            PortfolioConfig.title := PortfolioConfig.title config;
            PortfolioConfig.bio := PortfolioConfig.bio config;
            PortfolioConfig.email := PortfolioConfig.email config;
            PortfolioConfig.socialLinks := PortfolioConfig.socialLinks config;
            PortfolioConfig.theme := Some
              match PortfolioConfig.theme config with
              | Some theme => theme
              | None => light
              end |};
       Portfolio.projects := [] |}) as ->.
  { destruct (PortfolioConfig.socialLinks config) as [links|].
    - destruct (Nat.ltb 0 _); [discriminate | now injection Hok].
    - now injection Hok. }
  split; [exact Hreq|]. split; [reflexivity|].
  eexists. split; [reflexivity|]. simpl. repeat split; reflexivity.
Qed.

(** C4. When any of name, title, bio or email is absent or empty,
    [createPortfolio] throws the one combined error, whose message contains
    [requires name, title, bio, and email]; when all four are non-empty
    strings and every non-empty social link (if links are given) parses as a
    URL, [createPortfolio] returns a portfolio. *)
Theorem createPortfolio_required_fields `{Platform} config :
  (config_lacks_required config ->
   createPortfolio config
   = Throw (Error
       "Portfolio requires name, title, bio, and email in configuration")
   /\ includes "requires name, title, bio, and email"
        "Portfolio requires name, title, bio, and email in configuration"
      = true)
  /\ (config_has_required config ->
      (forall links platform url,
          PortfolioConfig.socialLinks config = Some links ->
          In (platform, Some url) links -> url <> EmptyString ->
          isValidURL url = true) ->
      exists portfolio, createPortfolio config = Ok portfolio).
Proof.
  split.
  - intros Hlack. apply config_check_true in Hlack.
    unfold createPortfolio. rewrite Hlack.
    split; [reflexivity | vm_compute; reflexivity].
  - intros Hreq Hlinks. apply config_check_false in Hreq.
    unfold createPortfolio. rewrite Hreq.
    destruct (PortfolioConfig.socialLinks config) as [links|];
      [|eexists; reflexivity].
    rewrite invalid_filter.
    destruct (offending_links links) as [|[platform value] rest] eqn:Hoff;
      [eexists; reflexivity|].
    assert (In (platform, value) (offending_links links)) as Hin
      by (rewrite Hoff; now left).
    destruct (offending_links_cases _ _ _ Hin) as (url & ->).
    apply offending_links_spec in Hin as (Hin & Hne & Hbad).
    rewrite (Hlinks links platform url eq_refl Hin Hne) in Hbad.
    discriminate.
Qed.

Lemma createPortfolio_required_fields_witness :
  (createPortfolio (H := sample_platform) no_email
   = Throw (Error
       "Portfolio requires name, title, bio, and email in configuration")
   /\ includes "requires name, title, bio, and email"
        "Portfolio requires name, title, bio, and email in configuration"
      = true)
  /\ exists portfolio,
      createPortfolio (H := sample_platform) alice = Ok portfolio.
Proof.
  split.
  - apply (proj1 (@createPortfolio_required_fields sample_platform no_email)).
    right; right; right; left; reflexivity.
  - apply (proj2 (@createPortfolio_required_fields sample_platform alice)).
    + repeat split; eexists; (split; [reflexivity | discriminate]).
    + intros links platform url [= <-] [[= <- <-]|[]] _.
      vm_compute; reflexivity.
Defined.

(** C5. When the required fields are there and the social links hold one or
    more non-empty urls that do not parse, [createPortfolio] throws an error
    whose message is [Invalid URLs in social links: ] followed by the
    [platform: url] texts of all the offending links, in the order of the
    mapping, joined by a comma and a space; so every offending pair occurs in
    the message, and a link is among those reported only if its url is a
    string that is not empty and does not parse. *)
Theorem createPortfolio_reports_every_invalid_link `{Platform} config links :
  config_has_required config ->
  PortfolioConfig.socialLinks config = Some links ->
  (exists platform url,
      In (platform, Some url) links /\ url <> EmptyString
      /\ isValidURL url = false) ->
  createPortfolio config
  = Throw (Error ("Invalid URLs in social links: "
                  ++ join ", " (map link_report (offending_links links))))
  /\ (forall platform url,
         In (platform, Some url) links -> url <> EmptyString ->
         isValidURL url = false ->
         includes (platform ++ ": " ++ url)
           ("Invalid URLs in social links: "
            ++ join ", " (map link_report (offending_links links))) = true)
  /\ (forall platform url,
         In (platform, Some url) (offending_links links)
         <-> In (platform, Some url) links /\ url <> EmptyString
             /\ isValidURL url = false)
  /\ (forall platform, ~ In (platform, None) (offending_links links)).
Proof.
  intros Hreq Hlinks (platform & url & Hin & Hne & Hbad).
  apply config_check_false in Hreq.
  split; [|split; [|split]].
  - unfold createPortfolio. rewrite Hreq, Hlinks, invalid_filter.
    assert (In (platform, Some url) (offending_links links)) as Hoff
      by now apply offending_links_spec.
    destruct (offending_links links); [destruct Hoff | reflexivity].
  - intros platform' url' Hin' Hne' Hbad'.
    apply includes_append_r, includes_join.
    apply (in_map link_report _ (platform', Some url')).
    now apply offending_links_spec.
  - intros platform' url'. apply offending_links_spec.
  - intros platform'. apply offending_links_defined.
Qed.

Lemma createPortfolio_reports_every_invalid_link_witness :
  createPortfolio (H := sample_platform) bad_links
  = Throw (Error
      "Invalid URLs in social links: github: not a url, twitter: nope").
Proof.
  apply (proj1 (@createPortfolio_reports_every_invalid_link sample_platform
                  bad_links
                  [("github", Some "not a url");
                   ("linkedin", Some EmptyString);
                   ("twitter", Some "nope")]
                  ltac:(repeat split; eexists;
                        (split; [reflexivity | discriminate]))
                  eq_refl
                  ltac:(exists "github", "not a url";
                        split; [now left | split;
                                  [discriminate | reflexivity]]))).
Defined.



Example createPortfolio_default_theme :
  exists stored,
    createPortfolio (H := sample_platform) john
    = Ok {| Portfolio.config := Some stored; Portfolio.projects := [] |}
    /\ PortfolioConfig.theme stored = Some light.
Proof. eexists. split; reflexivity. Qed.

(** ** addProject *)

Lemma strict_eq_true a b : strict_eq a b = true <-> a = b.
Proof.
  destruct a as [x|], b as [y|]; simpl; try (split; congruence).
  rewrite String.eqb_eq. split; congruence.
Qed.

Lemma project_check_true project :
  negb (truthy (Project.id project))
  || negb (truthy (Project.title project))
  || negb (truthy (Project.description project))
  || negb (truthy (Project.url project)) = true
  <-> project_lacks_required project.
Proof.
  unfold project_lacks_required.
  rewrite !orb_true_iff, !negb_true_iff, !truthy_false. tauto.
Qed.

Lemma duplicate_check_true portfolio project :
  existsb (fun p => strict_eq (Project.id p) (Project.id project))
    (Portfolio.projects portfolio) = true
  <-> duplicate_id portfolio project.
Proof.
  unfold duplicate_id. rewrite existsb_exists.
  split; intros (p & Hin & Heq); exists p; split; auto;
    now apply strict_eq_true.
Qed.

Lemma duplicate_check_In portfolio project :
  existsb (fun p => strict_eq (Project.id p) (Project.id project))
    (Portfolio.projects portfolio) = false ->
  ~ In (Project.id project) (map Project.id (Portfolio.projects portfolio)).
Proof.
  intros Hex Hin. apply in_map_iff in Hin as (p & Heq & Hin).
  assert (duplicate_id portfolio project) as Hdup by (exists p; auto).
  apply duplicate_check_true in Hdup. congruence.
Qed.

Lemma url_check_true `{Platform} v :
  v <> None ->
  negb (isValidURL (toString v)) = true <-> fails_isValidURL v.
Proof.
  unfold fails_isValidURL. intros Hv. rewrite negb_true_iff.
  destruct v as [text|]; [|congruence]. simpl. split.
  - intros Hbad. now exists text.
  - now intros (text' & [= <-] & Hbad).
Qed.

Lemma image_check_true `{Platform} v :
  truthy v && negb (isValidURL (toString v)) = true
  <-> present_and_fails_isValidURL v.
Proof.
  unfold present_and_fails_isValidURL.
  rewrite andb_true_iff, negb_true_iff, truthy_true. split.
  - intros ((text & -> & Hne) & Hbad). now exists text.
  - intros (text & -> & Hne & Hbad). split; [now exists text | exact Hbad].
Qed.

(** The checks of [addProject] as one decision list. *)
Lemma addProject_unfold `{Platform} portfolio project :
  addProject portfolio project =
  if negb (truthy (Project.id project))
     || negb (truthy (Project.title project))
     || negb (truthy (Project.description project))
     || negb (truthy (Project.url project))
  then (portfolio,
        Throw (Error "Project requires id, title, description, and url"))
  else if existsb (fun p => strict_eq (Project.id p) (Project.id project))
            (Portfolio.projects portfolio)
  then (portfolio,
        Throw (Error ("Project with ID " ++ dq
                      ++ toString (Project.id project) ++ dq
                      ++ " already exists")))
  else if negb (isValidURL (toString (Project.url project)))
  then (portfolio,
        Throw (Error ("Invalid URL in project " ++ dq
                      ++ toString (Project.title project) ++ dq ++ ": "
                      ++ toString (Project.url project))))
  else if truthy (Project.imageUrl project)
          && negb (isValidURL (toString (Project.imageUrl project)))
  then (portfolio,
        Throw (Error ("Invalid image URL in project " ++ dq
                      ++ toString (Project.title project) ++ dq ++ ": "
                      ++ toString (Project.imageUrl project))))
  else ({| Portfolio.config := Portfolio.config portfolio;
           Portfolio.projects :=
             (Portfolio.projects portfolio ++ [project])%list |},
        Ok tt).
Proof.
  unfold addProject, bind, when, throw, ret, push.
  destruct (negb (truthy (Project.id project)) || _ || _ || _);
    [reflexivity|].
  destruct (existsb _ _); [reflexivity|].
  destruct (negb (isValidURL (toString (Project.url project))));
    [reflexivity|].
  destruct (truthy (Project.imageUrl project) && _); reflexivity.
Qed.

Lemma lacks_required_url project :
  ~ project_lacks_required project -> Project.url project <> None.
Proof.
  intros Hreq Hnone. apply Hreq. right; right; right. now left.
Qed.

(** C2. The error [addProject] throws is the one of the first check that
    fails, in the order: required fields, duplicate id, url, image url.  A
    project that lacks a required field gets the required-fields error
    whatever else is wrong with it; otherwise one whose id is taken gets the
    conflict error; otherwise one whose url does not parse gets the url
    error; otherwise one whose non-empty image url does not parse gets the
    image-url error.  ([toString v] is the string that [v] holds.) *)
Theorem addProject_first_failing_check_wins `{Platform} portfolio project :
  (project_lacks_required project ->
   snd (addProject portfolio project)
   = Throw (Error "Project requires id, title, description, and url"))
  /\ (~ project_lacks_required project ->
      duplicate_id portfolio project ->
      snd (addProject portfolio project)
      = Throw (Error ("Project with ID " ++ dq
                      ++ toString (Project.id project) ++ dq
                      ++ " already exists")))
  /\ (~ project_lacks_required project ->
      ~ duplicate_id portfolio project ->
      fails_isValidURL (Project.url project) ->
      snd (addProject portfolio project)
      = Throw (Error ("Invalid URL in project " ++ dq
                      ++ toString (Project.title project) ++ dq ++ ": "
                      ++ toString (Project.url project))))
  /\ (~ project_lacks_required project ->
      ~ duplicate_id portfolio project ->
      ~ fails_isValidURL (Project.url project) ->
      present_and_fails_isValidURL (Project.imageUrl project) ->
      snd (addProject portfolio project)
      = Throw (Error ("Invalid image URL in project " ++ dq
                      ++ toString (Project.title project) ++ dq ++ ": "
                      ++ toString (Project.imageUrl project)))).
Proof.
  rewrite addProject_unfold.
  pose proof (project_check_true project) as H1.
  pose proof (duplicate_check_true portfolio project) as H2.
  pose proof (image_check_true (Project.imageUrl project)) as H4.
  destruct (negb (truthy (Project.id project)) || _ || _ || _).
  { repeat split; try reflexivity; intros Hreq; elim Hreq; now apply H1. }
  assert (~ project_lacks_required project) as Hreq
    by (intros Hl; apply H1 in Hl; discriminate).
  pose proof (url_check_true (Project.url project)
                (lacks_required_url project Hreq)) as H3.
  split; [intros Hl; now elim Hreq|].
  destruct (existsb _ _).
  { repeat split; try reflexivity; intros _ Hdup; elim Hdup; now apply H2. }
  split; [intros _ Hdup; apply H2 in Hdup; discriminate|].
  destruct (negb (isValidURL (toString (Project.url project)))).
  { split; [reflexivity|]. intros _ _ Hurl. elim Hurl. now apply H3. }
  split; [intros _ _ Hurl; apply H3 in Hurl; discriminate|].
  destruct (truthy (Project.imageUrl project) && _); [reflexivity|].
  intros _ _ _ Himg. apply H4 in Himg. discriminate.
Qed.

Lemma addProject_first_failing_check_wins_witness :
  snd (addProject (H := sample_platform) alice_one incomplete_project)
  = Throw (Error "Project requires id, title, description, and url")
  /\ snd (addProject (H := sample_platform) alice_one duplicate_project)
     = Throw (Error ("Project with ID " ++ dq ++ "1" ++ dq
                     ++ " already exists"))
  /\ snd (addProject (H := sample_platform) alice_one bad_url_project)
     = Throw (Error ("Invalid URL in project " ++ dq ++ "Broken" ++ dq
                     ++ ": not a url"))
  /\ snd (addProject (H := sample_platform) alice_one bad_image_project)
     = Throw (Error ("Invalid image URL in project " ++ dq ++ "Picture" ++ dq
                     ++ ": nope")).
Proof.
  assert (forall project,
             truthy (Project.id project) = true ->
             truthy (Project.title project) = true ->
             truthy (Project.description project) = true ->
             truthy (Project.url project) = true ->
             ~ project_lacks_required project) as Hreq.
  { intros project Hi Ht Hd Hu [Hl|[Hl|[Hl|Hl]]];
      apply truthy_false in Hl; congruence. }
  assert (forall project,
             Project.id project <> Some "1" ->
             ~ @duplicate_id alice_one project) as Hfresh.
  { intros project Hid (p & [<-|[]] & Heq). apply Hid. now rewrite <- Heq. }
  split; [|split; [|split]].
  - apply (proj1 (@addProject_first_failing_check_wins sample_platform
                    alice_one incomplete_project)).
    right; right; left; left; reflexivity.
  - apply (proj1 (proj2 (@addProject_first_failing_check_wins sample_platform
                           alice_one duplicate_project))).
    + now apply Hreq.
    + exists test_project. split; [now left | reflexivity].
  - apply (proj1 (proj2 (proj2 (@addProject_first_failing_check_wins
                                  sample_platform alice_one
                                  bad_url_project)))).
    + now apply Hreq.
    + apply Hfresh. discriminate.
    + exists "not a url". split; reflexivity.
  - apply (proj2 (proj2 (proj2 (@addProject_first_failing_check_wins
                                  sample_platform alice_one
                                  bad_image_project)))).
    + now apply Hreq.
    + apply Hfresh. discriminate.
    + intros (text & [= <-] & Hbad). vm_compute in Hbad. discriminate.
    + exists "nope".
      split; [reflexivity | split; [discriminate | reflexivity]].
Defined.

(** The four errors of [addProject] can be told apart by their messages,
    whatever id, title and urls they quote. *)
Lemma addProject_errors_distinct id title url imageUrl :
  let required := "Project requires id, title, description, and url" in
  let conflict := "Project with ID " ++ dq ++ id ++ dq ++ " already exists" in
  let bad_url :=
    "Invalid URL in project " ++ dq ++ title ++ dq ++ ": " ++ url in
  let bad_image :=
    "Invalid image URL in project " ++ dq ++ title ++ dq ++ ": "
    ++ imageUrl in
  required <> conflict /\ required <> bad_url /\ required <> bad_image
  /\ conflict <> bad_url /\ conflict <> bad_image /\ bad_url <> bad_image.
Proof.
  cbv zeta.
  repeat split; intros Heq; apply (f_equal (String.get 8)) in Heq;
    discriminate.
Qed.

(** C3. A failed [addProject] leaves the portfolio as it was: whatever it
    throws, the portfolio after the call is the portfolio before it, with
    the same project list; the list differs after a call only when the call
    succeeded, and then it is the old list with the project at its end. *)
Theorem addProject_failure_leaves_portfolio `{Platform}
  portfolio project portfolio' completion :
  addProject portfolio project = (portfolio', completion) ->
  (forall e, completion = Throw e ->
             portfolio' = portfolio
             /\ Portfolio.projects portfolio'
                = Portfolio.projects portfolio)
  /\ (Portfolio.projects portfolio' <> Portfolio.projects portfolio ->
      completion = Ok tt
      /\ Portfolio.projects portfolio'
         = (Portfolio.projects portfolio ++ [project])%list).
Proof.
  rewrite addProject_unfold.
  repeat match goal with
         | |- context [if ?c then _ else _] => destruct c
         end;
    intros [= <- <-]; split;
    try (intros e [=]); try (intros Hne; now elim Hne); auto.
Qed.

Lemma addProject_failure_leaves_portfolio_witness :
  snd (addProject (H := sample_platform) alice_one bad_url_project)
  = Throw (Error ("Invalid URL in project " ++ dq ++ "Broken" ++ dq
                  ++ ": not a url"))
  /\ fst (addProject (H := sample_platform) alice_one bad_url_project)
     = alice_one
  /\ Portfolio.projects
       (fst (addProject (H := sample_platform) alice_one bad_url_project))
     = [test_project].
Proof.
  split; [reflexivity|].
  apply (proj1 (@addProject_failure_leaves_portfolio sample_platform
                  alice_one bad_url_project
                  (fst (addProject (H := sample_platform)
                          alice_one bad_url_project))
                  (snd (addProject (H := sample_platform)
                          alice_one bad_url_project))
                  eq_refl)
           (Error ("Invalid URL in project " ++ dq ++ "Broken" ++ dq
                   ++ ": not a url"))).
  reflexivity.
Defined.

(** What a successful [addProject] has checked and done. *)
Lemma addProject_Ok `{Platform} portfolio project portfolio' :
  addProject portfolio project = (portfolio', Ok tt) ->
  portfolio' = {| Portfolio.config := Portfolio.config portfolio;
                  Portfolio.projects :=
                    (Portfolio.projects portfolio ++ [project])%list |}
  /\ ~ project_lacks_required project
  /\ ~ In (Project.id project)
         (map Project.id (Portfolio.projects portfolio)).
Proof.
  rewrite addProject_unfold.
  destruct (negb (truthy (Project.id project)) || _ || _ || _) eqn:Hreq;
    [discriminate|].
  destruct (existsb _ _) eqn:Hdup; [discriminate|].
  destruct (negb (isValidURL (toString (Project.url project))));
    [discriminate|].
  destruct (truthy (Project.imageUrl project) && _); [discriminate|].
  intros [= <-]. split; [reflexivity|]. split.
  - intros Hl. apply project_check_true in Hl. congruence.
  - now apply duplicate_check_In.
Qed.

Lemma addProject_Throw `{Platform} portfolio project portfolio' e :
  addProject portfolio project = (portfolio', Throw e) ->
  portfolio' = portfolio.
Proof.
  rewrite addProject_unfold.
  repeat match goal with
         | |- context [if ?c then _ else _] => destruct c
         end; congruence.
Qed.

Lemma has_required_typed project :
  ~ project_lacks_required project -> typed_project project.
Proof.
  unfold project_lacks_required, absent_or_empty, typed_project.
  intros Hreq. repeat split; intros Hnone; apply Hreq; tauto.
Qed.

(** Every portfolio the interface builds has a configuration and conforms to
    the declared types. *)
Lemma built_typed `{Platform} portfolio accepted :
  built portfolio accepted ->
  (exists config, Portfolio.config portfolio = Some config)
  /\ typed_portfolio portfolio.
Proof.
  induction 1 as [config portfolio Hcreate
                 | portfolio accepted project portfolio' _ IH Hadd
                 | portfolio accepted project portfolio' e _ IH Hadd].
  - apply createPortfolio_Ok in Hcreate
      as (Hreq & Hnil & stored & Hst & Hn & Ht & Hb & He & _).
    split; [now exists stored|]. split.
    + intros config' Hc. rewrite Hst in Hc. injection Hc as <-.
      destruct Hreq as ((n & En & _) & (t & Et & _) & (b & Eb & _)
                        & (m & Em & _)).
      unfold typed_config. rewrite Hn, Ht, Hb, He, En, Et, Eb, Em.
      repeat split; discriminate.
    + rewrite Hnil. constructor.
  - apply addProject_Ok in Hadd as (-> & Hreq & _).
    destruct IH as (Hcfg & Htc & Htp). split; [exact Hcfg|].
    split; [exact Htc|]. simpl. apply Forall_app. split; [exact Htp|].
    constructor; [now apply has_required_typed | constructor].
  - apply addProject_Throw in Hadd as ->. exact IH.
Qed.

(** C10. In a portfolio built by [createPortfolio] and any number of
    [addProject] calls, the project list is exactly the list of the projects
    whose calls succeeded, in call order, and their ids are pairwise
    distinct; a further call either leaves the list as it is or puts its
    project at the end, so nothing is ever removed or reordered. *)
Theorem built_projects_in_call_order `{Platform} portfolio accepted :
  built portfolio accepted ->
  Portfolio.projects portfolio = accepted
  /\ NoDup (map Project.id accepted)
  /\ (forall project portfolio' completion,
         addProject portfolio project = (portfolio', completion) ->
         (completion = Ok tt
          /\ Portfolio.projects portfolio' = (accepted ++ [project])%list)
         \/ ((exists e, completion = Throw e)
             /\ Portfolio.projects portfolio' = accepted)).
Proof.
  intros Hbuilt.
  assert (Portfolio.projects portfolio = accepted
          /\ NoDup (map Project.id accepted)) as [Hlist Hnodup].
  { induction Hbuilt as [config portfolio Hcreate
                        | portfolio accepted project portfolio' _ IH Hadd
                        | portfolio accepted project portfolio' e _ IH Hadd].
    - apply createPortfolio_Ok in Hcreate as (_ & Hnil & _).
      split; [exact Hnil | constructor].
    - destruct IH as [Hlist Hnodup].
      apply addProject_Ok in Hadd as (-> & _ & Hfresh).
      rewrite Hlist in Hfresh. simpl. rewrite Hlist.
      split; [reflexivity|].
      rewrite map_app. apply NoDup_app; [exact Hnodup | |].
      + constructor; [intros [] | constructor].
      + intros i Hin [<-|[]]. now apply Hfresh.
    - apply addProject_Throw in Hadd as ->. exact IH. }
  split; [exact Hlist|]. split; [exact Hnodup|].
  intros project portfolio' [[]|e] Hadd.
  - left. apply addProject_Ok in Hadd as (-> & _).
    simpl. now rewrite Hlist.
  - right. apply addProject_Throw in Hadd as ->.
    split; [now exists e | exact Hlist].
Qed.

Lemma alice_two_built :
  built (H := sample_platform) alice_two [test_project; script_project].
Proof.
  apply (built_add (H := sample_platform) alice_one [test_project]
           script_project alice_two); [|reflexivity].
  apply (built_reject (H := sample_platform) alice_one [test_project]
           duplicate_project alice_one
           (Error ("Project with ID " ++ dq ++ "1" ++ dq
                   ++ " already exists"))); [|reflexivity].
  apply (built_add (H := sample_platform) alice_empty []
           test_project alice_one); [|reflexivity].
  apply (built_create (H := sample_platform) alice alice_empty).
  reflexivity.
Defined.

Lemma built_projects_in_call_order_witness :
  Portfolio.projects alice_two = [test_project; script_project]
  /\ NoDup (map Project.id [test_project; script_project]).
Proof.
  destruct (@built_projects_in_call_order sample_platform alice_two
              [test_project; script_project] alice_two_built)
    as (Hlist & Hnodup & _).
  split; [exact Hlist | exact Hnodup].
Defined.

(** ** generateHTML *)

Lemma entity_nonempty a : entity a <> EmptyString.
Proof.
  unfold entity.
  repeat match goal with
         | |- context [if ?c then _ else _] => destruct c
         end; discriminate.
Qed.

Lemma escapeHTML_nonempty s : nonempty (escapeHTML s) = nonempty s.
Proof.
  destruct s as [|a s]; [reflexivity|].
  rewrite escapeHTML_cons.
  pose proof (entity_nonempty a) as Hne.
  now destruct (entity a).
Qed.

Lemma image_layout_present s title :
  nonempty s = true ->
  image_layout (Some s) title
  = ("<img src=" ++ dq) ++ s ++ (dq ++ " alt=" ++ dq) ++ title ++ (dq ++ ">").
Proof. destruct s; [discriminate | reflexivity]. Qed.

Lemma techTags_layout technologies :
  map techTag technologies = map tag_layout (map escapeHTML technologies).
Proof. rewrite map_map. reflexivity. Qed.

(** An anchor is the link layout of the escaped link when its url is a
    string, and a [TypeError] otherwise; rendering it leaves the store
    alone. *)
Lemma socialLink_layout entry st :
  socialLink entry st = (st, layout_link (escapeLink entry)).
Proof.
  destruct entry as [platform [url|]]; [|reflexivity].
  unfold socialLink, layout_link, escapeLink, link_layout. simpl snd.
  simpl fst. cbv beta iota delta [template bind lit esc ret option_map].
  rewrite !append_assoc, append_empty_r. reflexivity.
Qed.

Lemma socialLinks_layout links st :
  mapM socialLink links st = (st, layout_links (map escapeLink links)).
Proof.
  induction links as [|entry rest IH]; [reflexivity|].
  change (mapM socialLink (entry :: rest))
    with (b <- socialLink entry ;; bs <- mapM socialLink rest ;;
          ret (b :: bs)).
  unfold bind at 1. rewrite socialLink_layout.
  change (layout_links (map escapeLink (entry :: rest)))
    with (match layout_link (escapeLink entry) with
          | Ok anchor =>
              match layout_links (map escapeLink rest) with
              | Ok anchors => Ok (anchor :: anchors)
              | Throw e => Throw e
              end
          | Throw e => Throw e
          end).
  destruct (layout_link (escapeLink entry)); [|reflexivity].
  unfold bind. rewrite IH.
  destruct (layout_links (map escapeLink rest)); reflexivity.
Qed.

Lemma social_layout socialLinks st :
  match socialLinks with
  | Some links =>
      anchors <- mapM socialLink links ;; ret (join EmptyString anchors)
  | None => ret EmptyString
  end st
  = (st, layout_social (option_map (map escapeLink) socialLinks)).
Proof.
  destruct socialLinks as [links|]; [|reflexivity].
  unfold bind. rewrite socialLinks_layout. simpl option_map.
  unfold layout_social.
  destruct (layout_links (map escapeLink links)); reflexivity.
Qed.

(** A card is the card layout of the escaped project, and rendering it
    leaves the store alone. *)
Lemma projectCard_layout project st :
  projectCard project st = (st, layout_card (escapeProject project)).
Proof.
  unfold projectCard, layout_card, escapeProject; simpl Project.title;
    simpl Project.description; simpl Project.url; simpl Project.imageUrl;
    simpl Project.technologies.
  rewrite techTags_layout.
  destruct (Project.title project) as [title|],
    (Project.description project) as [description|],
    (Project.url project) as [url|];
    try reflexivity;
    try (destruct (truthy (Project.imageUrl project)); reflexivity).
  unfold card_layout.
  destruct (truthy (Project.imageUrl project)) eqn:Himg.
  - destruct (Project.imageUrl project) as [image|]; [|discriminate].
    cbv beta iota delta [template bind lit esc ret option_map].
    rewrite image_layout_present
      by (rewrite escapeHTML_nonempty; exact Himg).
    rewrite !append_empty_r. reflexivity.
  - destruct (Project.imageUrl project) as [[|a image]|];
      try discriminate;
      cbv beta iota delta [template bind lit esc ret option_map];
      rewrite !append_empty_r; reflexivity.
Qed.

Lemma projectCards_layout projects st :
  mapM projectCard projects st
  = (st, layout_cards (map escapeProject projects)).
Proof.
  induction projects as [|project rest IH]; [reflexivity|].
  change (mapM projectCard (project :: rest))
    with (b <- projectCard project ;; bs <- mapM projectCard rest ;;
          ret (b :: bs)).
  unfold bind at 1. rewrite projectCard_layout.
  change (layout_cards (map escapeProject (project :: rest)))
    with (match layout_card (escapeProject project) with
          | Ok card =>
              match layout_cards (map escapeProject rest) with
              | Ok cards => Ok (card :: cards)
              | Throw e => Throw e
              end
          | Throw e => Throw e
          end).
  destruct (layout_card (escapeProject project)); [|reflexivity].
  unfold bind. rewrite IH.
  destruct (layout_cards (map escapeProject rest)); reflexivity.
Qed.

(** Rendering is the layout of the escaped portfolio, and it returns the
    portfolio object as it received it. *)
Lemma generateHTML_layout portfolio :
  generateHTML portfolio = (portfolio, layout (escapePortfolio portfolio)).
Proof.
  unfold generateHTML, layout, escapePortfolio;
    simpl Portfolio.config; simpl Portfolio.projects.
  destruct (Portfolio.config portfolio) as [config|]; [|reflexivity].
  destruct (Portfolio.projects portfolio) as [|project rest] eqn:Hprojects;
    [reflexivity|].
  rewrite <- Hprojects.
  assert (Nat.eqb (List.length (Portfolio.projects portfolio)) 0 = false)
    as -> by now rewrite Hprojects.
  replace (map escapeProject (Portfolio.projects portfolio))
    with (escapeProject project :: map escapeProject rest)
    by now rewrite Hprojects.
  cbv beta iota delta [when orb option_map].
  unfold bind at 1, ret at 1. unfold bind at 1.
  replace (escapeProject project :: map escapeProject rest)
    with (map escapeProject (Portfolio.projects portfolio))
    by now rewrite Hprojects.
  rewrite projectCards_layout.
  destruct (layout_cards (map escapeProject (Portfolio.projects portfolio)))
    as [cards|e]; [|reflexivity].
  unfold escapeConfig; simpl PortfolioConfig.name;
    simpl PortfolioConfig.title; simpl PortfolioConfig.bio;
    simpl PortfolioConfig.email; simpl PortfolioConfig.theme;
    simpl PortfolioConfig.socialLinks.
  unfold bind at 1. rewrite social_layout.
  destruct (layout_social
              (option_map (map escapeLink)
                 (PortfolioConfig.socialLinks config)))
    as [links|e]; [|reflexivity].
  destruct (PortfolioConfig.name config) as [name|],
    (PortfolioConfig.title config) as [title|],
    (PortfolioConfig.bio config) as [bio|],
    (PortfolioConfig.email config) as [email|];
    try reflexivity.
  all: cbv beta iota delta [template bind lit esc ret option_map page_layout].
  all: rewrite !append_empty_r; reflexivity.
Qed.

(** *** What the layout returns *)

Lemma layout_link_Throw entry e :
  layout_link entry = Throw e -> e = TypeError.
Proof. unfold layout_link. destruct (snd entry); congruence. Qed.

Lemma layout_links_Throw links e :
  layout_links links = Throw e -> e = TypeError.
Proof.
  induction links as [|entry rest IH]; simpl; [discriminate|].
  destruct (layout_link entry) as [anchor|e'] eqn:Hanchor.
  - destruct (layout_links rest); [discriminate|].
    intros [= <-]. now apply IH.
  - intros [= <-]. now apply layout_link_Throw in Hanchor.
Qed.

Lemma layout_social_Throw socialLinks e :
  layout_social socialLinks = Throw e -> e = TypeError.
Proof.
  unfold layout_social. destruct socialLinks as [links|]; [|discriminate].
  destruct (layout_links links) eqn:Hlinks; [discriminate|].
  intros [= <-]. now apply layout_links_Throw in Hlinks.
Qed.

(** The links lay out exactly when each of them holds a string. *)
Lemma layout_links_defined links :
  (forall platform url, In (platform, url) links -> url <> None) ->
  exists anchors, layout_links links = Ok anchors.
Proof.
  induction links as [|[platform url] rest IH]; intros Hdef;
    [now exists []|].
  destruct IH as (anchors & IH).
  { intros p u Hin. apply (Hdef p u). now right. }
  destruct url as [url|].
  - eexists. simpl. rewrite IH. reflexivity.
  - now elim (Hdef platform None (or_introl eq_refl)).
Qed.

Lemma layout_links_undefined links platform :
  In (platform, None) links -> layout_links links = Throw TypeError.
Proof.
  induction links as [|[platform' url] rest IH]; intros Hin;
    [destruct Hin|].
  destruct Hin as [[= -> ->]|Hin]; [reflexivity|].
  simpl. destruct (layout_link (platform', url)) as [anchor|e] eqn:Hanchor.
  - now rewrite (IH Hin).
  - now apply layout_link_Throw in Hanchor as ->.
Qed.

Lemma layout_card_Throw project e :
  layout_card project = Throw e -> e = TypeError.
Proof.
  unfold layout_card.
  destruct (Project.title project), (Project.description project),
    (Project.url project); congruence.
Qed.

Lemma layout_cards_Throw projects e :
  layout_cards projects = Throw e -> e = TypeError.
Proof.
  induction projects as [|project rest IH]; simpl; [discriminate|].
  destruct (layout_card project) as [card|e'] eqn:Hcard.
  - destruct (layout_cards rest); [discriminate|].
    intros [= <-]. now apply IH.
  - intros [= <-]. now apply layout_card_Throw in Hcard.
Qed.

Lemma layout_cards_Ok projects cards :
  layout_cards projects = Ok cards ->
  Forall2 (fun project card => layout_card project = Ok card) projects cards.
Proof.
  revert cards. induction projects as [|project rest IH]; simpl; intros cards.
  - intros [= <-]. constructor.
  - destruct (layout_card project) as [card|] eqn:Hcard; [|discriminate].
    destruct (layout_cards rest) as [cards'|]; [|discriminate].
    intros [= <-]. constructor; [exact Hcard | now apply IH].
Qed.

Lemma layout_Ok portfolio html :
  layout portfolio = Ok html ->
  exists config name title bio email cards,
    Portfolio.config portfolio = Some config
    /\ Portfolio.projects portfolio <> []
    /\ PortfolioConfig.name config = Some name
    /\ PortfolioConfig.title config = Some title
    /\ PortfolioConfig.bio config = Some bio
    /\ PortfolioConfig.email config = Some email
    /\ layout_cards (Portfolio.projects portfolio) = Ok cards
    /\ exists links,
        layout_social (PortfolioConfig.socialLinks config) = Ok links
        /\ html = page_layout name title
                    (themeStyles (PortfolioConfig.theme config)) bio email
                    links (join EmptyString cards).
Proof.
  unfold layout.
  destruct (Portfolio.config portfolio) as [config|]; [|discriminate].
  destruct (Portfolio.projects portfolio) as [|project rest] eqn:Hprojects;
    [discriminate|].
  destruct (layout_cards (project :: rest)) as [cards|] eqn:Hcards;
    [|discriminate].
  destruct (layout_social (PortfolioConfig.socialLinks config))
    as [links|] eqn:Hlinks; [|discriminate].
  destruct (PortfolioConfig.name config) as [name|] eqn:Hn; [|discriminate].
  destruct (PortfolioConfig.title config) as [title|] eqn:Ht;
    [|discriminate].
  destruct (PortfolioConfig.bio config) as [bio|] eqn:Hb; [|discriminate].
  destruct (PortfolioConfig.email config) as [email|] eqn:He;
    [|discriminate].
  intros [= <-]. exists config, name, title, bio, email, cards.
  split; [reflexivity|]. split; [discriminate|].
  do 5 (split; [first [assumption | reflexivity]|]).
  exists links. split; [exact Hlinks | reflexivity].
Qed.

Lemma layout_empty portfolio :
  layout portfolio = Throw (Error "Cannot generate HTML for empty portfolio")
  <-> Portfolio.config portfolio = None \/ Portfolio.projects portfolio = [].
Proof.
  unfold layout.
  destruct (Portfolio.config portfolio) as [config|]; [|tauto].
  destruct (Portfolio.projects portfolio) as [|project rest]; [tauto|].
  split; [|intros [|]; discriminate].
  destruct (layout_cards (project :: rest)) as [cards|e] eqn:Hcards.
  - destruct (layout_social (PortfolioConfig.socialLinks config))
      as [links|e] eqn:Hlinks.
    + destruct (PortfolioConfig.name config),
        (PortfolioConfig.title config), (PortfolioConfig.bio config),
        (PortfolioConfig.email config); discriminate.
    + apply layout_social_Throw in Hlinks as ->. discriminate.
  - apply layout_cards_Throw in Hcards as ->. discriminate.
Qed.

Lemma layout_card_typed project :
  typed_project project ->
  exists card, layout_card (escapeProject project) = Ok card.
Proof.
  intros (_ & Ht & Hd & Hu). unfold layout_card, escapeProject. simpl.
  destruct (Project.title project); [|congruence].
  destruct (Project.description project); [|congruence].
  destruct (Project.url project); [|congruence].
  eexists; reflexivity.
Qed.

Lemma layout_cards_typed projects :
  Forall typed_project projects ->
  exists cards, layout_cards (map escapeProject projects) = Ok cards.
Proof.
  induction 1 as [|project rest Hp _ (cards & IH)]; [now exists []|].
  destruct (layout_card_typed project Hp) as (card & Hcard).
  exists (card :: cards). simpl. now rewrite Hcard, IH.
Qed.

Lemma layout_social_defined config :
  links_defined config ->
  exists links,
    layout_social
      (option_map (map escapeLink) (PortfolioConfig.socialLinks config))
    = Ok links.
Proof.
  unfold links_defined, layout_social. intros Hdef.
  destruct (PortfolioConfig.socialLinks config) as [links|];
    [|now exists EmptyString].
  simpl option_map.
  destruct (layout_links_defined (map escapeLink links)) as (anchors & ->);
    [|eexists; reflexivity].
  intros platform url Hin.
  apply in_map_iff in Hin as ([platform' url'] & [= <- <-] & Hin).
  specialize (Hdef links platform' url' eq_refl Hin).
  now destruct url'.
Qed.

Lemma layout_social_undefined config links platform :
  PortfolioConfig.socialLinks config = Some links ->
  In (platform, None) links ->
  layout_social
    (option_map (map escapeLink) (PortfolioConfig.socialLinks config))
  = Throw TypeError.
Proof.
  intros -> Hin. simpl.
  rewrite (layout_links_undefined _ (escapeHTML platform));
    [reflexivity|].
  now apply (in_map escapeLink _ (platform, None)).
Qed.

(** The links that lay out are links that hold strings, and their anchors
    are the link layouts of the escaped platforms and urls. *)
Lemma layout_links_escaped links anchors :
  layout_links (map escapeLink links) = Ok anchors ->
  exists strings,
    links = map (fun '(platform, url) => (platform, Some url)) strings
    /\ anchors
       = map link_layout
           (map (fun '(platform, url) =>
                   (escapeHTML platform, escapeHTML url)) strings).
Proof.
  revert anchors.
  induction links as [|[platform [url|]] rest IH]; intros anchors.
  - intros [= <-]. now exists [].
  - simpl. destruct (layout_links (map escapeLink rest)) as [anchors'|];
      [|discriminate].
    intros [= <-]. destruct (IH anchors' eq_refl) as (strings & -> & ->).
    now exists ((platform, url) :: strings).
  - discriminate.
Qed.

Lemma layout_social_escaped socialLinks text :
  layout_social (option_map (map escapeLink) socialLinks) = Ok text ->
  exists strings,
    (socialLinks = None /\ strings = []
     \/ socialLinks
        = Some (map (fun '(platform, url) => (platform, Some url)) strings))
    /\ text
       = join EmptyString
           (map link_layout
              (map (fun '(platform, url) =>
                      (escapeHTML platform, escapeHTML url)) strings)).
Proof.
  destruct socialLinks as [links|]; simpl.
  - destruct (layout_links (map escapeLink links)) as [anchors|] eqn:Hl;
      [|discriminate].
    intros [= <-].
    destruct (layout_links_escaped links anchors Hl) as (strings & -> & ->).
    exists strings. split; [now right | reflexivity].
  - intros [= <-]. exists []. split; [now left | reflexivity].
Qed.

Lemma layout_typed portfolio :
  Portfolio.config portfolio <> None ->
  Portfolio.projects portfolio <> [] ->
  typed_portfolio portfolio ->
  (forall config, Portfolio.config portfolio = Some config ->
                  links_defined config) ->
  exists html, layout (escapePortfolio portfolio) = Ok html.
Proof.
  intros Hconfig Hprojects (Htc & Htp) Hdef.
  destruct (layout_cards_typed _ Htp) as (cards & Hcards).
  unfold layout, escapePortfolio;
    simpl Portfolio.config; simpl Portfolio.projects.
  destruct (Portfolio.config portfolio) as [config|]; [|congruence].
  destruct (Htc config eq_refl) as (Hn & Ht & Hb & He).
  destruct (layout_social_defined config (Hdef config eq_refl))
    as (links & Hlinks).
  destruct (map escapeProject (Portfolio.projects portfolio)) eqn:Hm.
  { destruct (Portfolio.projects portfolio); [congruence | discriminate]. }
  rewrite Hcards.
  unfold escapeConfig, option_map at 1; simpl PortfolioConfig.name;
    simpl PortfolioConfig.title; simpl PortfolioConfig.bio;
    simpl PortfolioConfig.email; simpl PortfolioConfig.socialLinks.
  rewrite Hlinks. unfold option_map.
  destruct (PortfolioConfig.name config); [|congruence].
  destruct (PortfolioConfig.title config); [|congruence].
  destruct (PortfolioConfig.bio config); [|congruence].
  destruct (PortfolioConfig.email config); [|congruence].
  eexists; reflexivity.
Qed.

Lemma undefined_link_one_built :
  built (H := sample_platform) undefined_link_one [test_project].
Proof.
  apply (built_add (H := sample_platform) undefined_link_empty []
           test_project undefined_link_one); [|reflexivity].
  apply (built_create (H := sample_platform) undefined_link
           undefined_link_empty).
  reflexivity.
Defined.

(** C7. With a configuration and a non-empty project list [generateHTML]
    is to return the document.  It does not for [undefined_link_one]: this
    portfolio comes out of [createPortfolio] (which skips the link that holds
    [undefined]) and a successful [addProject], it has a configuration and a
    project and conforms to its declared types, and yet the link reaches
    [escapeHTML] unguarded and the call ends in a [TypeError]; no document is
    returned. *)
Theorem generateHTML_undefined_link_throws :
  createPortfolio (H := sample_platform) undefined_link
  = Ok undefined_link_empty
  /\ addProject (H := sample_platform) undefined_link_empty test_project
     = (undefined_link_one, Ok tt)
  /\ Portfolio.config undefined_link_one = Some undefined_link
  /\ Portfolio.projects undefined_link_one <> []
  /\ typed_portfolio undefined_link_one
  /\ generateHTML undefined_link_one = (undefined_link_one, Throw TypeError)
  /\ ~ (exists html, snd (generateHTML undefined_link_one) = Ok html).
Proof.
  split; [reflexivity|]. split; [reflexivity|]. split; [reflexivity|].
  split; [discriminate|]. split; [|split].
  - exact (proj2 (built_typed (H := sample_platform) undefined_link_one _
                    undefined_link_one_built)).
  - reflexivity.
  - intros (html & Hhtml). vm_compute in Hhtml. discriminate.
Qed.

(** X24. For a portfolio that has a configuration, [generateHTML] throws
    the error [Cannot generate HTML for empty portfolio] exactly when the
    project list is empty; when the list is not empty and every text the
    document shows is a string (the required texts of the configuration and
    of every project, as their declared types say, and the url of every
    social link that is there), it returns the document; and in every case
    the portfolio object is afterwards as it was before the call. *)
Theorem generateHTML_empty_portfolio portfolio config :
  Portfolio.config portfolio = Some config ->
  (snd (generateHTML portfolio)
   = Throw (Error "Cannot generate HTML for empty portfolio")
   <-> Portfolio.projects portfolio = [])
  /\ (Portfolio.projects portfolio <> [] ->
      typed_portfolio portfolio ->
      links_defined config ->
      exists html, snd (generateHTML portfolio) = Ok html)
  /\ fst (generateHTML portfolio) = portfolio.
Proof.
  intros Hconfig. rewrite generateHTML_layout. simpl fst. simpl snd.
  split; [|split; [|reflexivity]].
  - rewrite layout_empty. simpl. rewrite Hconfig. simpl.
    destruct (Portfolio.projects portfolio); simpl; split;
      try tauto; try discriminate.
    intros [|]; discriminate.
  - intros Hprojects Htyped Hdef.
    apply layout_typed;
      [congruence | exact Hprojects | exact Htyped |].
    intros config' Hconfig'. rewrite Hconfig in Hconfig'.
    now injection Hconfig' as <-.
Qed.

Lemma alice_links_defined : links_defined alice.
Proof.
  intros links platform url [= <-] [[= <- <-]|[]]. discriminate.
Defined.

Lemma generateHTML_empty_portfolio_witness :
  snd (generateHTML alice_empty)
  = Throw (Error "Cannot generate HTML for empty portfolio")
  /\ (exists html, snd (generateHTML alice_two) = Ok html)
  /\ fst (generateHTML alice_two) = alice_two.
Proof.
  split; [|split].
  - apply (proj1 (generateHTML_empty_portfolio alice_empty alice eq_refl)).
    reflexivity.
  - apply (proj1 (proj2 (generateHTML_empty_portfolio alice_two alice
                           eq_refl))).
    + discriminate.
    + exact (proj2 (built_typed (H := sample_platform) alice_two _
                      alice_two_built)).
    + exact alice_links_defined.
  - apply (proj2 (proj2 (generateHTML_empty_portfolio alice_two alice
                           eq_refl))).
Defined.

(** Finding a piece in a concatenation: the piece is the head of what is
    left, or lies in the head, or lies further to the right. *)
Ltac find_piece :=
  repeat first
    [ solve [apply includes_here]
    | solve [apply includes_append_l; assumption]
    | apply includes_append_r ].






(** *** No piece of the document opens a script tag *)

Lemma join_cons x parts :
  join EmptyString (x :: parts) = x ++ join EmptyString parts.
Proof.
  unfold join. destruct parts; simpl; [now rewrite append_empty_r|].
  reflexivity.
Qed.

Lemma opens_no_script_cons a s :
  opens_no_script (String a s)
  = (if Ascii.eqb a "<" then
       match s with
       | String b (String c _) => negb (Ascii.eqb b "s" && Ascii.eqb c "c")
       | _ => false
       end
     else true) && opens_no_script s.
Proof. reflexivity. Qed.

Lemma opens_no_script_app a b :
  opens_no_script a = true -> opens_no_script b = true ->
  opens_no_script (a ++ b) = true.
Proof.
  intros Ha Hb. induction a as [|x a IH]; [exact Hb|].
  rewrite opens_no_script_cons in Ha. apply andb_true_iff in Ha as [Hx Ha].
  change (String x a ++ b) with (String x (a ++ b)).
  rewrite opens_no_script_cons, (IH Ha), andb_true_r.
  destruct (Ascii.eqb x "<"); [|reflexivity].
  destruct a as [|y [|z a]]; try discriminate. exact Hx.
Qed.

Lemma opens_no_script_entity a : opens_no_script (entity a) = true.
Proof.
  unfold entity.
  destruct (Ascii.eqb a "&"); [reflexivity|].
  destruct (Ascii.eqb a "<") eqn:Hlt; [reflexivity|].
  destruct (Ascii.eqb a ">"); [reflexivity|].
  destruct (Ascii.eqb a dquote); [reflexivity|].
  destruct (Ascii.eqb a "'"); [reflexivity|].
  rewrite opens_no_script_cons, Hlt. reflexivity.
Qed.

Lemma opens_no_script_escapeHTML s : opens_no_script (escapeHTML s) = true.
Proof.
  induction s as [|a s IH]; [reflexivity|].
  rewrite escapeHTML_cons.
  apply opens_no_script_app; [apply opens_no_script_entity | exact IH].
Qed.

Lemma opens_no_script_join parts :
  Forall (fun s => opens_no_script s = true) parts ->
  opens_no_script (join EmptyString parts) = true.
Proof.
  induction 1 as [|x parts Hx _ IH]; [reflexivity|].
  rewrite join_cons. now apply opens_no_script_app.
Qed.

(** A string none of whose pieces opens a script tag does not contain
    [<script>]. *)
Lemma opens_no_script_sound s :
  opens_no_script s = true -> includes "<script>" s = false.
Proof.
  induction s as [|a s IH]; [reflexivity|].
  rewrite opens_no_script_cons. intros Hs.
  apply andb_true_iff in Hs as [Ha Hs].
  change (String.prefix "<script>" (String a s) || includes "<script>" s
          = false).
  rewrite (IH Hs), orb_false_r.
  change (match ascii_dec "<" a with
          | left _ => String.prefix "script>" s
          | right _ => false
          end = false).
  destruct (ascii_dec "<" a) as [<-|]; [|reflexivity].
  change (Ascii.eqb "<" "<") with true in Ha. cbv iota in Ha.
  destruct s as [|b [|c s]]; try discriminate.
  change (match ascii_dec "s" b with
          | left _ =>
              match ascii_dec "c" c with
              | left _ => String.prefix "ript>" s
              | right _ => false
              end
          | right _ => false
          end = false).
  destruct (ascii_dec "s" b) as [<-|]; [|reflexivity].
  destruct (ascii_dec "c" c) as [<-|]; [|reflexivity].
  discriminate.
Qed.

Create HintDb markup discriminated.

#[local] Hint Resolve opens_no_script_app opens_no_script_escapeHTML
  opens_no_script_join : markup.
#[local] Hint Extern 1 (opens_no_script _ = true) => reflexivity : markup.

Lemma opens_no_script_tags technologies :
  Forall (fun s => opens_no_script s = true)
    (map tag_layout (map escapeHTML technologies)).
Proof.
  induction technologies as [|tech rest IH]; [constructor|].
  constructor; [|exact IH]. unfold tag_layout. auto 10 with markup.
Qed.

Lemma opens_no_script_links links :
  Forall (fun s => opens_no_script s = true)
    (map link_layout
       (map (fun '(platform, url) => (escapeHTML platform, escapeHTML url))
          links)).
Proof.
  induction links as [|[platform url] rest IH]; [constructor|].
  constructor; [|exact IH]. unfold link_layout. auto 20 with markup.
Qed.

Lemma opens_no_script_image imageUrl title :
  opens_no_script
    (image_layout (option_map escapeHTML imageUrl) (escapeHTML title))
  = true.
Proof.
  destruct imageUrl as [image|]; [|reflexivity].
  destruct (nonempty (escapeHTML image)) eqn:Hne.
  - change (option_map escapeHTML (Some image))
      with (Some (escapeHTML image)).
    rewrite image_layout_present by exact Hne. auto 20 with markup.
  - change (option_map escapeHTML (Some image))
      with (Some (escapeHTML image)).
    destruct (escapeHTML image); [reflexivity | discriminate].
Qed.

Lemma opens_no_script_card project card :
  layout_card (escapeProject project) = Ok card ->
  opens_no_script card = true.
Proof.
  unfold layout_card, escapeProject; simpl Project.title;
    simpl Project.description; simpl Project.url; simpl Project.imageUrl;
    simpl Project.technologies.
  destruct (Project.title project) as [title|]; [|discriminate].
  destruct (Project.description project) as [description|]; [|discriminate].
  destruct (Project.url project) as [url|]; [|discriminate].
  intros [= <-]. unfold card_layout.
  pose proof (opens_no_script_tags (Project.technologies project)).
  pose proof (opens_no_script_image (Project.imageUrl project) title).
  repeat (apply opens_no_script_app); auto with markup.
Qed.

Lemma opens_no_script_cards projects cards :
  layout_cards (map escapeProject projects) = Ok cards ->
  Forall (fun s => opens_no_script s = true) cards.
Proof.
  intros Hcards. apply layout_cards_Ok in Hcards.
  remember (map escapeProject projects) as escaped eqn:He.
  revert projects He.
  induction Hcards as [|escaped_project card rest cards Hcard _ IH];
    intros projects He; [constructor|].
  destruct projects as [|project projects]; [discriminate|].
  injection He as -> ->.
  constructor; [now apply (opens_no_script_card project) |].
  now apply (IH projects).
Qed.

Lemma opens_no_script_document portfolio html :
  layout (escapePortfolio portfolio) = Ok html ->
  opens_no_script html = true.
Proof.
  intros Hlayout. apply layout_Ok in Hlayout
    as (config' & name & title & bio & email & cards & Hc & _ & Hn & Ht & Hb
        & He & Hcards & links & Hsocial & ->).
  unfold escapePortfolio in Hc, Hcards. simpl in Hc, Hcards.
  destruct (Portfolio.config portfolio) as [config|]; [|discriminate].
  injection Hc as <-.
  unfold escapeConfig in Hn, Ht, Hb, He, Hsocial |- *.
  simpl in Hn, Ht, Hb, He, Hsocial |- *.
  destruct (PortfolioConfig.name config); [|discriminate].
  destruct (PortfolioConfig.title config); [|discriminate].
  destruct (PortfolioConfig.bio config); [|discriminate].
  destruct (PortfolioConfig.email config); [|discriminate].
  injection Hn as <-. injection Ht as <-. injection Hb as <-.
  injection He as <-.
  apply opens_no_script_cards in Hcards.
  assert (opens_no_script
            (themeStyles (PortfolioConfig.theme config)) = true) as Hstyle
    by now destruct (PortfolioConfig.theme config) as [[]|].
  assert (opens_no_script links = true) as Hlinks.
  { apply layout_social_escaped in Hsocial as (strings & _ & ->).
    apply opens_no_script_join, opens_no_script_links. }
  unfold page_layout.
  repeat (apply opens_no_script_app); auto with markup.
Qed.

(** *** Where the escaped texts of a project are *)

Lemma layout_cards_In projects cards project :
  layout_cards projects = Ok cards -> In project projects ->
  exists card, layout_card project = Ok card /\ In card cards.
Proof.
  intros Hcards. apply layout_cards_Ok in Hcards.
  induction Hcards as [|project' card rest cards Hcard _ IH];
    intros Hin; [destruct Hin|].
  destruct Hin as [->|Hin].
  - exists card. split; [exact Hcard | now left].
  - destruct (IH Hin) as (card' & Hcard' & Hin').
    exists card'. split; [exact Hcard' | now right].
Qed.

Lemma card_layout_texts title description technologies url imageUrl :
  includes title
    (card_layout title description technologies url imageUrl) = true
  /\ includes description
       (card_layout title description technologies url imageUrl) = true.
Proof. unfold card_layout. split; find_piece. Qed.

Lemma page_layout_cards x name title style bio email links cards :
  includes x cards = true ->
  includes x (page_layout name title style bio email links cards) = true.
Proof. intros Hx. unfold page_layout. find_piece. Qed.

Lemma includes_join_part x part parts :
  In part parts -> includes x part = true ->
  includes x (join EmptyString parts) = true.
Proof.
  intros Hin Hx. induction parts as [|y parts IH]; [destruct Hin|].
  rewrite join_cons. destruct Hin as [->|Hin].
  - now apply includes_append_l.
  - now apply includes_append_r, IH.
Qed.

(** The escaped title and description of every project of a portfolio are
    in the document. *)
Lemma document_project_texts portfolio html project title description :
  layout (escapePortfolio portfolio) = Ok html ->
  In project (Portfolio.projects portfolio) ->
  Project.title project = Some title ->
  Project.description project = Some description ->
  includes (escapeHTML title) html = true
  /\ includes (escapeHTML description) html = true.
Proof.
  intros Hlayout Hin Htitle Hdescription.
  apply layout_Ok in Hlayout
    as (config & name & title' & bio & email & cards & _ & _ & _ & _ & _ & _
        & Hcards & links & _ & ->).
  destruct (layout_cards_In _ _ (escapeProject project) Hcards)
    as (card & Hcard & Hcin).
  { unfold escapePortfolio. simpl. now apply in_map. }
  unfold layout_card, escapeProject in Hcard. simpl in Hcard.
  rewrite Htitle, Hdescription in Hcard. simpl in Hcard.
  destruct (Project.url project) as [url|]; [|discriminate].
  simpl in Hcard. injection Hcard as <-.
  match type of Hcin with
  | In (card_layout ?t ?d ?ts ?u ?i) _ =>
      destruct (card_layout_texts t d ts u i) as [Ht Hd]
  end.
  split; apply page_layout_cards;
    now apply (includes_join_part _ _ _ Hcin).
Qed.

(** C1. The document [generateHTML] returns is the layout of the portfolio
    whose texts (name, title, bio, email, the platform and url of every social
    link, and title, description, technologies, url and image url of every
    project) have each been passed through [escapeHTML]: no text reaches the
    document in any other form.  The document never contains [<script>]; and
    when a project has the title [<script>] and the description [a & b], the
    document contains [&lt;script&gt;] and [a &amp; b]. *)
Theorem generateHTML_escapes_user_text portfolio html :
  snd (generateHTML portfolio) = Ok html ->
  snd (generateHTML portfolio) = layout (escapePortfolio portfolio)
  /\ includes "<script>" html = false
  /\ (forall project,
         In project (Portfolio.projects portfolio) ->
         Project.title project = Some "<script>" ->
         Project.description project = Some "a & b" ->
         includes "&lt;script&gt;" html = true
         /\ includes "a &amp; b" html = true).
Proof.
  rewrite generateHTML_layout. simpl snd. intros Hlayout.
  split; [reflexivity|]. split.
  - apply opens_no_script_sound.
    now apply (opens_no_script_document portfolio).
  - intros project Hin Htitle Hdescription.
    exact (document_project_texts portfolio html project
             "<script>" "a & b" Hlayout Hin Htitle Hdescription).
Qed.

Lemma generateHTML_escapes_user_text_witness :
  includes "<script>" (document alice_two) = false
  /\ includes "&lt;script&gt;" (document alice_two) = true
  /\ includes "a &amp; b" (document alice_two) = true.
Proof.
  destruct (generateHTML_escapes_user_text alice_two (document alice_two)
              eq_refl) as (_ & Hnone & Hboth).
  split; [exact Hnone|].
  apply (Hboth script_project); [right; now left | reflexivity..].
Defined.

(** ** The scenario of the specification

    [alice] with the one project [test_project]: the document shows the
    name, the project title, both technologies, the image and the dark
    rule. *)
Example scenario_document :
  includes "<h1>Alice</h1>" (document alice_one) = true
  /\ includes "<h3>Test Project</h3>" (document alice_one) = true
  /\ includes ("<span class=" ++ dq ++ "tech-tag" ++ dq ++ ">React</span>")
       (document alice_one) = true
  /\ includes ("<span class=" ++ dq ++ "tech-tag" ++ dq
               ++ ">TypeScript</span>")
       (document alice_one) = true
  /\ includes ("<img src=" ++ dq ++ "https://image.com/p.jpg" ++ dq
               ++ " alt=" ++ dq ++ "Test Project" ++ dq ++ ">")
       (document alice_one) = true
  /\ includes "body { background: #121212; color: #ffffff; }"
       (document alice_one) = true.
Proof. vm_compute. repeat split. Qed.

(** * Further properties of the program *)

(** ** escapeHTML *)

Lemma all_chars_app P a b :
  all_chars P (a ++ b) = all_chars P a && all_chars P b.
Proof.
  induction a as [|x a IH]; [reflexivity|].
  simpl. now rewrite IH, andb_assoc.
Qed.

Lemma length_append a b :
  String.length (a ++ b) = String.length a + String.length b.
Proof. induction a as [|x a IH]; simpl; [reflexivity | now rewrite IH]. Qed.

(** The entity of a character that is none of the five is the character;
    the entity of one of the five starts with an ampersand, is longer than
    one character and holds no markup character. *)
Lemma entity_plain a :
  special_char a = false -> entity a = String a EmptyString.
Proof.
  unfold special_char, markup_char, entity.
  destruct (Ascii.eqb a "&"); [discriminate|].
  destruct (Ascii.eqb a "<"); [discriminate|].
  destruct (Ascii.eqb a ">"); [discriminate|].
  destruct (Ascii.eqb a dquote); [discriminate|].
  destruct (Ascii.eqb a "'"); [discriminate | reflexivity].
Qed.

Lemma entity_special a :
  special_char a = true ->
  exists rest, entity a = String "&" rest /\ 3 <= String.length rest.
Proof.
  unfold special_char, markup_char, entity. intros Hs.
  destruct (Ascii.eqb a "&"); [eexists; split; [reflexivity | simpl; lia]|].
  destruct (Ascii.eqb a "<"); [eexists; split; [reflexivity | simpl; lia]|].
  destruct (Ascii.eqb a ">"); [eexists; split; [reflexivity | simpl; lia]|].
  destruct (Ascii.eqb a dquote);
    [eexists; split; [reflexivity | simpl; lia]|].
  destruct (Ascii.eqb a "'"); [eexists; split; [reflexivity | simpl; lia]|].
  discriminate.
Qed.

Lemma entity_no_markup a :
  all_chars (fun c => negb (markup_char c)) (entity a) = true.
Proof.
  unfold entity.
  destruct (Ascii.eqb a "&") eqn:E1; [reflexivity|].
  destruct (Ascii.eqb a "<") eqn:E2; [reflexivity|].
  destruct (Ascii.eqb a ">") eqn:E3; [reflexivity|].
  destruct (Ascii.eqb a dquote) eqn:E4; [reflexivity|].
  destruct (Ascii.eqb a "'") eqn:E5; [reflexivity|].
  simpl. unfold markup_char. now rewrite E2, E3, E4, E5.
Qed.

(** X1. Whatever the input, the string [escapeHTML] returns holds none of
    the characters [<], [>], double quote and apostrophe. *)
Theorem escapeHTML_output_has_no_markup s :
  all_chars (fun a => negb (markup_char a)) (escapeHTML s) = true.
Proof.
  induction s as [|a s IH]; [reflexivity|].
  now rewrite escapeHTML_cons, all_chars_app, entity_no_markup, IH.
Qed.

Lemma entity_cancel a b s t :
  entity a ++ s = entity b ++ t -> a = b /\ s = t.
Proof.
  unfold entity.
  repeat match goal with
         | |- context [Ascii.eqb ?x ?c] => destruct (Ascii.eqb_spec x c)
         end;
    subst; simpl; intros Heq; try discriminate;
    injection Heq; intros; subst; try congruence; auto.
Qed.

(** X2. [escapeHTML] loses nothing: two texts with the same escaped form
    are the same text. *)
Theorem escapeHTML_injective a b :
  escapeHTML a = escapeHTML b -> a = b.
Proof.
  revert b. induction a as [|x a IH]; intros [|y b].
  - reflexivity.
  - rewrite escapeHTML_cons. pose proof (entity_nonempty y).
    destruct (entity y); [congruence | discriminate].
  - rewrite escapeHTML_cons. pose proof (entity_nonempty x).
    destruct (entity x); [congruence | discriminate].
  - rewrite !escapeHTML_cons. intros Heq.
    apply entity_cancel in Heq as [-> Heq]. now rewrite (IH b Heq).
Qed.

Lemma escapeHTML_injective_witness : "a & b" = "a & b".
Proof. apply (escapeHTML_injective "a & b" "a & b"). reflexivity. Defined.

(** X3. Escaping a concatenation gives the concatenation of the escaped
    parts, so a text may be escaped piece by piece. *)
Theorem escapeHTML_concatenation a b :
  escapeHTML (a ++ b) = escapeHTML a ++ escapeHTML b.
Proof. unfold escapeHTML. now rewrite !replaceAll_app. Qed.

Lemma escapeHTML_length s :
  String.length s <= String.length (escapeHTML s).
Proof.
  induction s as [|a s IH]; [simpl; lia|].
  rewrite escapeHTML_cons, length_append. simpl String.length.
  pose proof (entity_nonempty a). destruct (entity a); [congruence|].
  simpl. lia.
Qed.

Lemma escapeHTML_fixed s : escapeHTML s = s <-> plain_text s = true.
Proof.
  unfold plain_text. induction s as [|a s IH]; [simpl; tauto|].
  rewrite escapeHTML_cons. simpl all_chars.
  destruct (special_char a) eqn:Hs.
  - simpl. split; [|discriminate]. intros Heq.
    destruct (entity_special a Hs) as (rest & Hent & Hlen).
    rewrite Hent in Heq. simpl in Heq. injection Heq as _ Heq.
    apply (f_equal String.length) in Heq. rewrite length_append in Heq.
    pose proof (escapeHTML_length s). lia.
  - rewrite (entity_plain a Hs). simpl. rewrite <- IH.
    split; [now intros [= ->] | now intros ->].
Qed.

(** X4. [escapeHTML] returns its input unchanged exactly when the input
    holds none of the five characters [&], [<], [>], double quote and
    apostrophe. *)
Theorem escapeHTML_unchanged_iff_plain s :
  escapeHTML s = s <-> plain_text s = true.
Proof. apply escapeHTML_fixed. Qed.

Lemma plain_text_escaped s :
  plain_text (escapeHTML s) = plain_text s.
Proof.
  unfold plain_text. induction s as [|a s IH]; [reflexivity|].
  rewrite escapeHTML_cons, all_chars_app, IH. simpl all_chars. f_equal.
  destruct (special_char a) eqn:Hs.
  - destruct (entity_special a Hs) as (rest & -> & _). reflexivity.
  - rewrite (entity_plain a Hs). simpl. now rewrite Hs.
Qed.

(** X5. Escaping is not idempotent: escaping an escaped text changes it
    again exactly when the original text holds one of the five characters,
    so a text must be escaped once and only once. *)
Theorem escapeHTML_twice_iff_plain s :
  escapeHTML (escapeHTML s) = escapeHTML s <-> plain_text s = true.
Proof. now rewrite escapeHTML_fixed, plain_text_escaped. Qed.

(** ** createPortfolio, further *)

(** A successful [createPortfolio] and its result, in full. *)
Lemma createPortfolio_Ok_iff `{Platform} config portfolio :
  createPortfolio config = Ok portfolio
  <-> config_has_required config
      /\ (forall links, PortfolioConfig.socialLinks config = Some links ->
                        offending_links links = [])
      /\ portfolio =
         {| Portfolio.config := Some
              {| PortfolioConfig.name := PortfolioConfig.name config;
                 PortfolioConfig.title := PortfolioConfig.title config;
                 PortfolioConfig.bio := PortfolioConfig.bio config;
                 PortfolioConfig.email := PortfolioConfig.email config;
                 PortfolioConfig.socialLinks :=
                   PortfolioConfig.socialLinks config;
                 PortfolioConfig.theme := Some
                   match PortfolioConfig.theme config with
                   | Some theme => theme
                   | None => light
                   end |};
            Portfolio.projects := [] |}.
Proof.
  unfold createPortfolio.
  destruct (negb (truthy (PortfolioConfig.name config)) || _ || _ || _)
    eqn:Hreq.
  - split; [discriminate|]. intros (Hhas & _).
    apply config_check_false in Hhas. congruence.
  - apply config_check_false in Hreq.
    destruct (PortfolioConfig.socialLinks config) as [links|].
    + rewrite invalid_filter.
      destruct (offending_links links) as [|entry rest] eqn:Hoff.
      * split.
        -- intros [= <-]. split; [exact Hreq | split; [|reflexivity]].
           now intros links' [= <-].
        -- now intros (_ & _ & ->).
      * split; [discriminate|]. intros (_ & Hnone & _).
        specialize (Hnone links eq_refl). congruence.
    + split.
      * intros [= <-]. split; [exact Hreq | split; [|reflexivity]].
        discriminate.
      * now intros (_ & _ & ->).
Qed.

(** X6. The portfolio [createPortfolio] returns has no projects, and its
    stored configuration carries the name, title, bio, email and social
    links of the input unchanged. *)
Theorem createPortfolio_returns_fresh_portfolio `{Platform}
  config portfolio :
  createPortfolio config = Ok portfolio ->
  Portfolio.projects portfolio = []
  /\ exists stored,
      Portfolio.config portfolio = Some stored
      /\ PortfolioConfig.name stored = PortfolioConfig.name config
      /\ PortfolioConfig.title stored = PortfolioConfig.title config
      /\ PortfolioConfig.bio stored = PortfolioConfig.bio config
      /\ PortfolioConfig.email stored = PortfolioConfig.email config
      /\ PortfolioConfig.socialLinks stored
         = PortfolioConfig.socialLinks config.
Proof.
  intros Hok. apply createPortfolio_Ok_iff in Hok as (_ & _ & ->).
  split; [reflexivity|]. eexists. split; [reflexivity|].
  simpl. repeat split; reflexivity.
Qed.

Lemma createPortfolio_returns_fresh_portfolio_witness :
  Portfolio.projects alice_empty = []
  /\ exists stored,
      Portfolio.config alice_empty = Some stored
      /\ PortfolioConfig.name stored = PortfolioConfig.name alice
      /\ PortfolioConfig.title stored = PortfolioConfig.title alice
      /\ PortfolioConfig.bio stored = PortfolioConfig.bio alice
      /\ PortfolioConfig.email stored = PortfolioConfig.email alice
      /\ PortfolioConfig.socialLinks stored
         = PortfolioConfig.socialLinks alice.
Proof.
  apply (@createPortfolio_returns_fresh_portfolio sample_platform
           alice alice_empty).
  reflexivity.
Defined.

(** X7. [createPortfolio] returns a portfolio exactly when the four required
    texts are non-empty strings and no social link has a non-empty url that
    fails to parse; links with an empty url never stand in the way. *)
Theorem createPortfolio_succeeds_iff `{Platform} config :
  (exists portfolio, createPortfolio config = Ok portfolio)
  <-> config_has_required config
      /\ (forall links platform url,
             PortfolioConfig.socialLinks config = Some links ->
             In (platform, Some url) links -> url <> EmptyString ->
             isValidURL url = true).
Proof.
  split.
  - intros (portfolio & Hok).
    apply createPortfolio_Ok_iff in Hok as (Hreq & Hnone & _).
    split; [exact Hreq|]. intros links platform url Hlinks Hin Hne.
    destruct (isValidURL url) eqn:Hvalid; [reflexivity|].
    assert (In (platform, Some url) (offending_links links)) as Hoff
      by now apply offending_links_spec.
    rewrite (Hnone links Hlinks) in Hoff. destruct Hoff.
  - intros (Hreq & Hlinks). eexists. apply createPortfolio_Ok_iff.
    split; [exact Hreq|]. split; [|reflexivity].
    intros links Hsome.
    destruct (offending_links links) as [|[platform value] rest] eqn:Hoff;
      [reflexivity|].
    assert (In (platform, value) (offending_links links)) as Hin
      by (rewrite Hoff; now left).
    destruct (offending_links_cases _ _ _ Hin) as (url & ->).
    apply offending_links_spec in Hin as (Hin & Hne & Hbad).
    rewrite (Hlinks links platform url Hsome Hin Hne) in Hbad.
    discriminate.
Qed.

(** X8. The stored configuration is a fixed point: handing the
    configuration of a created portfolio back to [createPortfolio] succeeds
    and returns the same portfolio. *)
Theorem createPortfolio_stored_config_fixed `{Platform}
  config portfolio stored :
  createPortfolio config = Ok portfolio ->
  Portfolio.config portfolio = Some stored ->
  createPortfolio stored = Ok portfolio.
Proof.
  intros Hok Hstored.
  apply createPortfolio_Ok_iff in Hok as (Hreq & Hnone & ->).
  simpl in Hstored. injection Hstored as <-.
  apply createPortfolio_Ok_iff. simpl.
  split; [exact Hreq|]. split; [exact Hnone|].
  now destruct (PortfolioConfig.theme config).
Qed.

Lemma createPortfolio_stored_config_fixed_witness :
  createPortfolio (H := sample_platform)
    {| PortfolioConfig.name := Some "John Doe";
       PortfolioConfig.title := Some "Web Developer";
       PortfolioConfig.bio := Some "A passionate developer";
       PortfolioConfig.email := Some "john@example.com";
       PortfolioConfig.socialLinks := None;
       PortfolioConfig.theme := Some light |}
  = Ok {| Portfolio.config := Some
            {| PortfolioConfig.name := Some "John Doe";
               PortfolioConfig.title := Some "Web Developer";
               PortfolioConfig.bio := Some "A passionate developer";
               PortfolioConfig.email := Some "john@example.com";
               PortfolioConfig.socialLinks := None;
               PortfolioConfig.theme := Some light |};
          Portfolio.projects := [] |}.
Proof.
  apply (@createPortfolio_stored_config_fixed sample_platform john);
    reflexivity.
Defined.

(** ** addProject, further *)

(** A successful [addProject] and its result, in full. *)
Lemma addProject_Ok_iff `{Platform} portfolio project portfolio' :
  addProject portfolio project = (portfolio', Ok tt)
  <-> ~ project_lacks_required project
      /\ ~ duplicate_id portfolio project
      /\ ~ fails_isValidURL (Project.url project)
      /\ ~ present_and_fails_isValidURL (Project.imageUrl project)
      /\ portfolio' =
         {| Portfolio.config := Portfolio.config portfolio;
            Portfolio.projects :=
              (Portfolio.projects portfolio ++ [project])%list |}.
Proof.
  rewrite addProject_unfold.
  pose proof (project_check_true project) as H1.
  pose proof (duplicate_check_true portfolio project) as H2.
  pose proof (image_check_true (Project.imageUrl project)) as H4.
  destruct (negb (truthy (Project.id project)) || _ || _ || _).
  { split; [discriminate|]. intros (Hreq & _). elim Hreq. now apply H1. }
  assert (~ project_lacks_required project) as Hreq
    by (intros Hl; apply H1 in Hl; discriminate).
  pose proof (url_check_true (Project.url project)
                (lacks_required_url project Hreq)) as H3.
  destruct (existsb _ _).
  { split; [discriminate|]. intros (_ & Hdup & _). elim Hdup. now apply H2. }
  destruct (negb (isValidURL (toString (Project.url project)))).
  { split; [discriminate|]. intros (_ & _ & Hurl & _). elim Hurl.
    now apply H3. }
  destruct (truthy (Project.imageUrl project) && _).
  { split; [discriminate|]. intros (_ & _ & _ & Himg & _). elim Himg.
    now apply H4. }
  split.
  - intros [= <-]. split; [exact Hreq|].
    split; [intros Hd; apply H2 in Hd; discriminate|].
    split; [intros Hu; apply H3 in Hu; discriminate|].
    split; [intros Hi; apply H4 in Hi; discriminate | reflexivity].
  - now intros (_ & _ & _ & _ & ->).
Qed.

(** X9. [addProject] succeeds exactly when the project has its four required
    texts, its id is not yet in the portfolio, its url parses and its image
    url, if not empty, parses; the portfolio is then the old one with the
    same configuration and the project added at the end. *)
Theorem addProject_succeeds_iff `{Platform} portfolio project :
  (snd (addProject portfolio project) = Ok tt
   <-> ~ project_lacks_required project
       /\ ~ duplicate_id portfolio project
       /\ ~ fails_isValidURL (Project.url project)
       /\ ~ present_and_fails_isValidURL (Project.imageUrl project))
  /\ (snd (addProject portfolio project) = Ok tt ->
      fst (addProject portfolio project)
      = {| Portfolio.config := Portfolio.config portfolio;
           Portfolio.projects :=
             (Portfolio.projects portfolio ++ [project])%list |})
  /\ Portfolio.config (fst (addProject portfolio project))
     = Portfolio.config portfolio.
Proof.
  destruct (addProject portfolio project) as [portfolio' completion] eqn:Hadd.
  simpl fst. simpl snd. split; [|split].
  - split.
    + intros ->. apply addProject_Ok_iff in Hadd. tauto.
    + intros (Hr & Hd & Hu & Hi).
      assert (addProject portfolio project
              = ({| Portfolio.config := Portfolio.config portfolio;
                    Portfolio.projects :=
                      (Portfolio.projects portfolio ++ [project])%list |},
                 Ok tt)) as Hok
        by (apply addProject_Ok_iff; tauto).
      congruence.
  - intros ->. apply addProject_Ok_iff in Hadd. tauto.
  - destruct completion as [[]|e].
    + apply addProject_Ok_iff in Hadd as (_ & _ & _ & _ & ->). reflexivity.
    + apply addProject_Throw in Hadd as ->. reflexivity.
Qed.

(** Nothing an [addProject] call does removes a project from the
    portfolio. *)
Lemma addProject_keeps `{Platform} portfolio project stored :
  In stored (Portfolio.projects portfolio) ->
  In stored (Portfolio.projects (fst (addProject portfolio project))).
Proof.
  intros Hin.
  destruct (addProject portfolio project) as [portfolio' [[]|e]] eqn:Hadd.
  - apply addProject_Ok in Hadd as (-> & _). simpl.
    apply in_or_app. now left.
  - now apply addProject_Throw in Hadd as ->.
Qed.

Lemma later_keeps `{Platform} portfolio portfolio' stored :
  later portfolio portfolio' ->
  In stored (Portfolio.projects portfolio) ->
  In stored (Portfolio.projects portfolio').
Proof.
  induction 1 as [|portfolio portfolio' project _ IH]; intros Hin;
    [exact Hin|].
  now apply addProject_keeps, IH.
Qed.

Lemma project_required_by_check project :
  truthy (Project.id project) = true ->
  truthy (Project.title project) = true ->
  truthy (Project.description project) = true ->
  truthy (Project.url project) = true ->
  ~ project_lacks_required project.
Proof.
  intros Hi Ht Hd Hu [Hl|[Hl|[Hl|Hl]]]; apply truthy_false in Hl; congruence.
Qed.

(** X10. Once a project has been added, every later [addProject] for a
    project with the same id, after any number of further calls that
    succeeded or failed, is turned down with the conflict error that quotes
    the id, whatever its other fields are (as long as the required ones are
    there), and leaves the portfolio as it is. *)
Theorem addProject_same_id_conflicts `{Platform}
  portfolio first portfolio' portfolio'' second :
  addProject portfolio first = (portfolio', Ok tt) ->
  later portfolio' portfolio'' ->
  Project.id second = Project.id first ->
  ~ project_lacks_required second ->
  addProject portfolio'' second
  = (portfolio'',
     Throw (Error ("Project with ID " ++ dq
                   ++ toString (Project.id second) ++ dq
                   ++ " already exists"))).
Proof.
  intros Hadd Hlater Hid Hreq.
  assert (In first (Portfolio.projects portfolio'')) as Hin.
  { apply (later_keeps portfolio'); [exact Hlater|].
    apply addProject_Ok in Hadd as (-> & _). simpl.
    apply in_or_app. right. now left. }
  assert (duplicate_id portfolio'' second) as Hdup
    by (exists first; auto).
  apply duplicate_check_true in Hdup.
  rewrite addProject_unfold, Hdup.
  destruct (negb (truthy (Project.id second)) || _ || _ || _) eqn:Hcheck;
    [|reflexivity].
  apply project_check_true in Hcheck. contradiction.
Qed.

Lemma addProject_same_id_conflicts_witness :
  addProject (H := sample_platform) alice_two duplicate_project
  = (alice_two,
     Throw (Error ("Project with ID " ++ dq ++ "1" ++ dq
                   ++ " already exists"))).
Proof.
  apply (@addProject_same_id_conflicts sample_platform
           alice_empty test_project alice_one alice_two duplicate_project).
  - reflexivity.
  - exact (later_call (H := sample_platform) alice_one alice_one
             script_project (later_now alice_one)).
  - reflexivity.
  - now apply project_required_by_check.
Defined.

(** X11. Projects with different ids do not get in each other's way: after
    a project has been added, a call for a project with another id completes
    as it would have completed before. *)
Theorem addProject_other_id_unaffected `{Platform}
  portfolio first portfolio' second :
  addProject portfolio first = (portfolio', Ok tt) ->
  Project.id second <> Project.id first ->
  snd (addProject portfolio' second) = snd (addProject portfolio second).
Proof.
  intros Hadd Hid.
  apply addProject_Ok_iff in Hadd as (_ & _ & _ & _ & ->).
  rewrite !addProject_unfold. simpl Portfolio.projects.
  rewrite existsb_app. simpl existsb.
  assert (strict_eq (Project.id first) (Project.id second) = false) as ->.
  { destruct (strict_eq _ _) eqn:Heq; [|reflexivity].
    apply strict_eq_true in Heq. congruence. }
  rewrite !orb_false_r.
  repeat match goal with
         | |- context [if ?c then _ else _] => destruct c
         end; reflexivity.
Qed.

Lemma addProject_other_id_unaffected_witness :
  snd (addProject (H := sample_platform) alice_one other_project)
  = snd (addProject (H := sample_platform) alice_empty other_project).
Proof.
  apply (@addProject_other_id_unaffected sample_platform
           alice_empty test_project alice_one other_project).
  - reflexivity.
  - discriminate.
Defined.

(** ** Portfolios built through the interface *)

Lemma built_projects `{Platform} portfolio accepted :
  built portfolio accepted -> Portfolio.projects portfolio = accepted.
Proof.
  induction 1 as [config portfolio Hcreate
                 | portfolio accepted project portfolio' _ IH Hadd
                 | portfolio accepted project portfolio' e _ IH Hadd].
  - now apply createPortfolio_Ok in Hcreate as (_ & Hnil & _).
  - apply addProject_Ok in Hadd as (-> & _). simpl. now rewrite IH.
  - now apply addProject_Throw in Hadd as ->.
Qed.

Lemma addProject_accepts `{Platform} portfolio project portfolio' :
  addProject portfolio project = (portfolio', Ok tt) ->
  accepted_project project.
Proof.
  intros Hadd. apply addProject_Ok_iff in Hadd as (Hreq & _ & Hurl & Himg & _).
  split; [exact Hreq|]. split.
  - destruct (Project.url project) as [url|] eqn:Hu.
    + exists url. split; [reflexivity|].
      destruct (isValidURL url) eqn:Hv; [reflexivity|].
      elim Hurl. now exists url.
    + elim (lacks_required_url project Hreq Hu).
  - intros image Hsome Hne.
    destruct (isValidURL image) eqn:Hv; [reflexivity|].
    elim Himg. now exists image.
Qed.

(** X12. What was checked on the way in stays true of what is stored: in a
    portfolio built by [createPortfolio] and [addProject] calls, the stored
    configuration has its four required texts, its non-empty social links
    parse and its theme is set; and every stored project has its four
    required texts, a url that parses and an image url that is absent, empty
    or parses. *)
Theorem built_portfolio_is_validated `{Platform} portfolio accepted :
  built portfolio accepted ->
  (exists stored,
      Portfolio.config portfolio = Some stored /\ accepted_config stored)
  /\ Forall accepted_project (Portfolio.projects portfolio).
Proof.
  induction 1 as [config portfolio Hcreate
                 | portfolio accepted project portfolio' _ IH Hadd
                 | portfolio accepted project portfolio' e _ IH Hadd].
  - pose proof Hcreate as Hiff.
    apply createPortfolio_Ok_iff in Hiff as (Hreq & Hnone & ->).
    split; [|constructor]. eexists. split; [reflexivity|].
    split; [exact Hreq|]. split; [|discriminate].
    simpl. intros links platform url Hlinks Hin Hne.
    destruct (isValidURL url) eqn:Hv; [reflexivity|].
    assert (In (platform, Some url) (offending_links links)) as Hoff
      by now apply offending_links_spec.
    rewrite (Hnone links Hlinks) in Hoff. destruct Hoff.
  - pose proof (addProject_accepts _ _ _ Hadd) as Hacc.
    apply addProject_Ok in Hadd as (-> & _). destruct IH as [Hc Hp].
    split; [exact Hc|]. simpl. apply Forall_app.
    split; [exact Hp | now constructor].
  - now apply addProject_Throw in Hadd as ->.
Qed.

Lemma built_portfolio_is_validated_witness :
  (exists stored,
      Portfolio.config alice_two = Some stored
      /\ accepted_config (H := sample_platform) stored)
  /\ Forall (accepted_project (H := sample_platform))
       (Portfolio.projects alice_two).
Proof.
  exact (@built_portfolio_is_validated sample_platform alice_two
           [test_project; script_project] alice_two_built).
Defined.

(** X13. For a portfolio built through the interface, [generateHTML]
    throws the empty-portfolio error as long as no [addProject] call has
    succeeded.  Once one has, it returns a document when every social link
    of the configuration holds a string, and it throws a [TypeError] when
    some social link is there and holds [undefined] (such a link passes
    [createPortfolio], which skips it).  Either way the portfolio object is
    left as it was. *)
Theorem built_portfolio_renders `{Platform} portfolio accepted config :
  built portfolio accepted ->
  Portfolio.config portfolio = Some config ->
  (accepted = [] ->
   generateHTML portfolio
   = (portfolio, Throw (Error "Cannot generate HTML for empty portfolio")))
  /\ (accepted <> [] -> links_defined config ->
      exists html, generateHTML portfolio = (portfolio, Ok html))
  /\ (accepted <> [] ->
      forall links platform,
        PortfolioConfig.socialLinks config = Some links ->
        In (platform, None) links ->
        generateHTML portfolio = (portfolio, Throw TypeError)).
Proof.
  intros Hbuilt Hconfig.
  pose proof (built_projects _ _ Hbuilt) as Hprojects.
  apply built_typed in Hbuilt as (_ & Htyped).
  rewrite generateHTML_layout. split; [|split].
  - intros ->. f_equal. apply layout_empty. right. simpl.
    now rewrite Hprojects.
  - intros Hne Hdef.
    destruct (layout_typed portfolio) as (html & Hhtml); try congruence.
    + intros config' Hconfig'. rewrite Hconfig in Hconfig'.
      now injection Hconfig' as <-.
    + exists html. now rewrite Hhtml.
  - intros Hne links platform Hlinks Hin. f_equal.
    destruct Htyped as (_ & Htp).
    destruct (layout_cards_typed _ Htp) as (cards & Hcards).
    unfold layout, escapePortfolio;
      simpl Portfolio.config; simpl Portfolio.projects.
    rewrite Hconfig. simpl option_map.
    destruct (map escapeProject (Portfolio.projects portfolio)) eqn:Hm.
    { destruct (Portfolio.projects portfolio); [congruence | discriminate]. }
    rewrite Hcards.
    change (PortfolioConfig.socialLinks (escapeConfig config))
      with (option_map (map escapeLink) (PortfolioConfig.socialLinks config)).
    now rewrite (layout_social_undefined config links platform Hlinks Hin).
Qed.

Lemma built_portfolio_renders_witness :
  (exists html, generateHTML alice_two = (alice_two, Ok html))
  /\ generateHTML undefined_link_one = (undefined_link_one, Throw TypeError).
Proof.
  split.
  - apply (proj1 (proj2 (@built_portfolio_renders sample_platform alice_two
                           [test_project; script_project] alice
                           alice_two_built eq_refl)));
      [discriminate | exact alice_links_defined].
  - apply (proj2 (proj2 (@built_portfolio_renders sample_platform
                           undefined_link_one [test_project] undefined_link
                           undefined_link_one_built eq_refl))
             ltac:(discriminate) [("github", None)] "github" eq_refl).
    now left.
Defined.

(** ** generateHTML, further *)

(** X14. A portfolio object without a configuration is turned down with the
    empty-portfolio error, whether it has projects or not, and is left as it
    was. *)
Theorem generateHTML_without_config portfolio :
  Portfolio.config portfolio = None ->
  generateHTML portfolio
  = (portfolio, Throw (Error "Cannot generate HTML for empty portfolio")).
Proof.
  intros Hnone. rewrite generateHTML_layout. f_equal.
  apply layout_empty. left. simpl. now rewrite Hnone.
Qed.

Lemma generateHTML_without_config_witness :
  generateHTML no_config
  = (no_config, Throw (Error "Cannot generate HTML for empty portfolio")).
Proof. apply (generateHTML_without_config no_config). reflexivity. Defined.

Lemma ends_in_context z x y :
  (exists before, y = before ++ z) -> exists before, x ++ y = before ++ z.
Proof.
  intros (before & ->). exists (x ++ before). now rewrite append_assoc.
Qed.

Lemma page_layout_frame name title style bio email links cards :
  String.prefix "<!DOCTYPE html>"
    (page_layout name title style bio email links cards) = true
  /\ exists body,
      page_layout name title style bio email links cards
      = body ++ "</html>".
Proof.
  unfold page_layout. split.
  - apply prefix_append_l. reflexivity.
  - do 20 apply ends_in_context.
    exists (nl ++ "  </main>" ++ nl ++ "</body>" ++ nl).
    now rewrite !append_assoc.
Qed.

(** X15. Every document [generateHTML] returns starts with the doctype
    [<!DOCTYPE html>] and ends with [</html>]. *)
Theorem generateHTML_document_frame portfolio html :
  snd (generateHTML portfolio) = Ok html ->
  String.prefix "<!DOCTYPE html>" html = true
  /\ exists body, html = body ++ "</html>".
Proof.
  rewrite generateHTML_layout. simpl snd. intros Hlayout.
  apply layout_Ok in Hlayout
    as (config & name & title & bio & email & cards & _ & _ & _ & _ & _ & _
        & _ & links & _ & ->).
  apply page_layout_frame.
Qed.

Lemma generateHTML_document_frame_witness :
  String.prefix "<!DOCTYPE html>" (document alice_one) = true
  /\ exists body, document alice_one = body ++ "</html>".
Proof.
  apply (generateHTML_document_frame alice_one (document alice_one)).
  reflexivity.
Defined.

(** *** Finding a tag in a concatenation *)

Lemma prefix_append_same a x y :
  String.prefix x y = true -> String.prefix (a ++ x) (a ++ y) = true.
Proof.
  intros Hp. induction a as [|c a IH]; [exact Hp|].
  simpl. destruct (ascii_dec c c); [exact IH | congruence].
Qed.

Lemma prefix_refl x : String.prefix x x = true.
Proof. rewrite <- (append_empty_r x) at 2. apply prefix_append. Qed.

(** The text sought starts what is left of the concatenation: its pieces
    are the leading pieces, the last of them up to a literal tail. *)
Ltac match_here :=
  apply includes_prefix;
  repeat apply prefix_append_same;
  first [ apply prefix_refl | apply prefix_append_l; reflexivity ].

(** Walks along a flat concatenation to the literal piece that consists of
    [pad] and the first piece of the text sought, and matches from there. *)
Ltac locate pad :=
  lazymatch goal with
  | |- includes (?tag ++ _) _ = true =>
      repeat lazymatch goal with
      | |- includes ?x (?leaf ++ ?rest) = true =>
          first
            [ solve [ change (includes x ((pad ++ tag) ++ rest) = true);
                      rewrite (append_assoc pad tag rest);
                      apply includes_append_r; match_here ]
            | apply includes_append_r ]
      end
  end.

Lemma page_layout_header name title style bio email links cards :
  includes ("<title>" ++ name ++ " - " ++ title ++ "</title>")
    (page_layout name title style bio email links cards) = true
  /\ includes ("<h1>" ++ name ++ "</h1>")
       (page_layout name title style bio email links cards) = true
  /\ includes ("<h2>" ++ title ++ "</h2>")
       (page_layout name title style bio email links cards) = true
  /\ includes ("<p>" ++ bio ++ "</p>")
       (page_layout name title style bio email links cards) = true
  /\ includes ("<a href=" ++ dq ++ "mailto:" ++ email ++ dq ++ ">" ++ email
               ++ "</a>")
       (page_layout name title style bio email links cards) = true.
Proof.
  unfold page_layout. rewrite !append_assoc.
  split; [|split; [|split; [|split]]].
  - locate "  ".
  - locate "    ".
  - locate "    ".
  - locate "    ".
  - locate "    <p>Email: ".
Qed.

(** What a rendered document is made of: the escaped configuration texts
    and one card per project. *)
Lemma generateHTML_Ok portfolio html :
  snd (generateHTML portfolio) = Ok html ->
  exists config name title bio email cards,
    Portfolio.config portfolio = Some config
    /\ PortfolioConfig.name config = Some name
    /\ PortfolioConfig.title config = Some title
    /\ PortfolioConfig.bio config = Some bio
    /\ PortfolioConfig.email config = Some email
    /\ layout_cards (map escapeProject (Portfolio.projects portfolio))
       = Ok cards
    /\ exists links,
        layout_social
          (option_map (map escapeLink) (PortfolioConfig.socialLinks config))
        = Ok links
        /\ html = page_layout (escapeHTML name) (escapeHTML title)
                    (themeStyles (PortfolioConfig.theme config))
                    (escapeHTML bio) (escapeHTML email)
                    links (join EmptyString cards).
Proof.
  rewrite generateHTML_layout. simpl snd. intros Hlayout.
  apply layout_Ok in Hlayout
    as (config' & name' & title' & bio' & email' & cards & Hc & _ & Hn & Ht
        & Hb & He & Hcards & links & Hsocial & ->).
  unfold escapePortfolio in Hc, Hcards. simpl in Hc, Hcards.
  destruct (Portfolio.config portfolio) as [config|]; [|discriminate].
  injection Hc as <-.
  unfold escapeConfig in Hn, Ht, Hb, He, Hsocial |- *.
  simpl in Hn, Ht, Hb, He, Hsocial |- *.
  destruct (PortfolioConfig.name config) as [name|] eqn:En; [|discriminate].
  destruct (PortfolioConfig.title config) as [title|] eqn:Et;
    [|discriminate].
  destruct (PortfolioConfig.bio config) as [bio|] eqn:Eb; [|discriminate].
  destruct (PortfolioConfig.email config) as [email|] eqn:Ee;
    [|discriminate].
  injection Hn as <-. injection Ht as <-. injection Hb as <-.
  injection He as <-.
  exists config, name, title, bio, email, cards.
  split; [reflexivity|]. do 4 (split; [assumption|]).
  split; [exact Hcards|]. exists links. split; [exact Hsocial | reflexivity].
Qed.

(** X16. The head and header of a rendered document show the escaped texts
    of the configuration: the page title is name, [ - ] and title, the name
    is the [h1] heading, the title the [h2] heading, the bio a paragraph, and
    the email is both target and text of a [mailto:] link.  ([toString v] is
    the string that [v] holds.) *)
Theorem generateHTML_header portfolio config html :
  snd (generateHTML portfolio) = Ok html ->
  Portfolio.config portfolio = Some config ->
  let name := escapeHTML (toString (PortfolioConfig.name config)) in
  let title := escapeHTML (toString (PortfolioConfig.title config)) in
  let bio := escapeHTML (toString (PortfolioConfig.bio config)) in
  let email := escapeHTML (toString (PortfolioConfig.email config)) in
  includes ("<title>" ++ name ++ " - " ++ title ++ "</title>") html = true
  /\ includes ("<h1>" ++ name ++ "</h1>") html = true
  /\ includes ("<h2>" ++ title ++ "</h2>") html = true
  /\ includes ("<p>" ++ bio ++ "</p>") html = true
  /\ includes ("<a href=" ++ dq ++ "mailto:" ++ email ++ dq ++ ">" ++ email
               ++ "</a>") html = true.
Proof.
  intros Hok Hconfig.
  apply generateHTML_Ok in Hok
    as (config' & name & title & bio & email & cards & Hc & Hn & Ht & Hb & He
        & _ & links & _ & ->).
  rewrite Hconfig in Hc. injection Hc as <-.
  rewrite Hn, Ht, Hb, He. cbv zeta. simpl toString.
  apply page_layout_header.
Qed.

Lemma generateHTML_header_witness :
  includes "<title>Alice - Developer</title>" (document alice_one) = true
  /\ includes "<h1>Alice</h1>" (document alice_one) = true
  /\ includes "<h2>Developer</h2>" (document alice_one) = true
  /\ includes "<p>Full stack developer</p>" (document alice_one) = true
  /\ includes ("<a href=" ++ dq ++ "mailto:alice@example.com" ++ dq
               ++ ">alice@example.com</a>") (document alice_one) = true.
Proof.
  exact (generateHTML_header alice_one alice (document alice_one)
           eq_refl eq_refl).
Defined.

Lemma page_layout_links x name title style bio email links cards :
  includes x links = true ->
  includes x (page_layout name title style bio email links cards) = true.
Proof. intros Hx. unfold page_layout. find_piece. Qed.

(** X17. Every social link of the stored configuration is in the rendered
    document as an anchor of class [social-link] whose target is the escaped
    url and whose text is the escaped platform name.  ([toString v] is the
    string that [v] holds; in a portfolio that renders every link holds
    one.) *)
Theorem generateHTML_social_links portfolio config html links platform url :
  snd (generateHTML portfolio) = Ok html ->
  Portfolio.config portfolio = Some config ->
  PortfolioConfig.socialLinks config = Some links ->
  In (platform, url) links ->
  includes ("<a href=" ++ dq ++ escapeHTML (toString url) ++ dq ++ " class="
            ++ dq ++ "social-link" ++ dq ++ " rel=" ++ dq
            ++ "noopener noreferrer" ++ dq ++ ">" ++ escapeHTML platform
            ++ "</a>") html = true.
Proof.
  intros Hok Hconfig Hlinks Hin.
  apply generateHTML_Ok in Hok
    as (config' & name & title & bio & email & cards & Hc & _ & _ & _ & _
        & _ & text & Hsocial & ->).
  rewrite Hconfig in Hc. injection Hc as <-. rewrite Hlinks in Hsocial.
  apply layout_social_escaped in Hsocial
    as (strings & [[[=] _] | [= ->]] & ->).
  apply in_map_iff in Hin as ([platform' url'] & [= -> <-] & Hin).
  simpl toString. apply page_layout_links.
  apply (includes_join_part _
           (link_layout (escapeHTML platform, escapeHTML url'))).
  - apply in_map.
    now apply (in_map (fun '(platform, url) =>
                         (escapeHTML platform, escapeHTML url))
                 _ (platform, url')).
  - unfold link_layout. apply includes_prefix, prefix_refl.
Qed.

Lemma generateHTML_social_links_witness :
  includes ("<a href=" ++ dq ++ "https://github.com/alice" ++ dq ++ " class="
            ++ dq ++ "social-link" ++ dq ++ " rel=" ++ dq
            ++ "noopener noreferrer" ++ dq ++ ">github</a>")
    (document alice_one) = true.
Proof.
  apply (generateHTML_social_links alice_one alice (document alice_one)
           [("github", Some "https://github.com/alice")]
           "github" (Some "https://github.com/alice"));
    [reflexivity | reflexivity | reflexivity | now left].
Defined.

(** *** The cards *)

Lemma card_layout_tags title description technologies url imageUrl :
  includes ("<h3>" ++ title ++ "</h3>")
    (card_layout title description technologies url imageUrl) = true
  /\ includes ("<p>" ++ description ++ "</p>")
       (card_layout title description technologies url imageUrl) = true
  /\ includes ("<a href=" ++ dq ++ url ++ dq ++ " target=" ++ dq ++ "_blank"
               ++ dq ++ " rel=" ++ dq ++ "noopener noreferrer" ++ dq
               ++ ">View Project</a>")
       (card_layout title description technologies url imageUrl) = true.
Proof.
  unfold card_layout. rewrite !append_assoc.
  split; [|split]; locate "        ".
Qed.

Lemma card_layout_technology title description technologies url imageUrl
  tech :
  In tech technologies ->
  includes ("<span class=" ++ dq ++ "tech-tag" ++ dq ++ ">" ++ tech
            ++ "</span>")
    (card_layout title description technologies url imageUrl) = true.
Proof.
  intros Hin.
  assert (includes (tag_layout tech)
            (join EmptyString (map tag_layout technologies)) = true) as Htag
    by (apply includes_join; now apply in_map).
  unfold card_layout. unfold tag_layout in Htag at 1. find_piece.
Qed.

Lemma card_layout_image title description technologies url image :
  nonempty image = true ->
  includes ("<img src=" ++ dq ++ image ++ dq ++ " alt=" ++ dq ++ title ++ dq
            ++ ">")
    (card_layout title description technologies url (Some image)) = true.
Proof.
  intros Hne. unfold card_layout. rewrite image_layout_present by exact Hne.
  rewrite !append_assoc. locate EmptyString.
Qed.

(** Whatever a card holds, the document holds. *)
Lemma card_in_document portfolio html project :
  snd (generateHTML portfolio) = Ok html ->
  In project (Portfolio.projects portfolio) ->
  exists title description url,
    Project.title project = Some title
    /\ Project.description project = Some description
    /\ Project.url project = Some url
    /\ forall x,
        includes x
          (card_layout (escapeHTML title) (escapeHTML description)
             (map escapeHTML (Project.technologies project))
             (escapeHTML url)
             (option_map escapeHTML (Project.imageUrl project))) = true ->
        includes x html = true.
Proof.
  intros Hok Hin.
  apply generateHTML_Ok in Hok
    as (config & name & title' & bio & email & cards & _ & _ & _ & _ & _
        & Hcards & links & _ & ->).
  destruct (layout_cards_In _ _ (escapeProject project) Hcards)
    as (card & Hcard & Hcin); [now apply in_map|].
  unfold layout_card, escapeProject in Hcard;
    simpl Project.title in Hcard; simpl Project.description in Hcard;
    simpl Project.url in Hcard; simpl Project.imageUrl in Hcard;
    simpl Project.technologies in Hcard.
  destruct (Project.title project) as [title|]; [|discriminate].
  destruct (Project.description project) as [description|]; [|discriminate].
  destruct (Project.url project) as [url|]; [|discriminate].
  injection Hcard as <-.
  exists title, description, url. repeat split.
  intros x Hx. apply page_layout_cards.
  now apply (includes_join_part _ _ _ Hcin).
Qed.

(** X18. For every project of the portfolio the rendered document holds its
    escaped title as an [h3] heading, its escaped description as a
    paragraph, a [View Project] link to its escaped url that opens in a new
    tab, and one [tech-tag] span for each of its technologies, escaped. *)
Theorem generateHTML_project_card portfolio html project :
  snd (generateHTML portfolio) = Ok html ->
  In project (Portfolio.projects portfolio) ->
  includes ("<h3>" ++ escapeHTML (toString (Project.title project))
            ++ "</h3>") html = true
  /\ includes ("<p>" ++ escapeHTML (toString (Project.description project))
               ++ "</p>") html = true
  /\ includes ("<a href=" ++ dq
               ++ escapeHTML (toString (Project.url project)) ++ dq
               ++ " target=" ++ dq ++ "_blank" ++ dq ++ " rel=" ++ dq
               ++ "noopener noreferrer" ++ dq ++ ">View Project</a>") html
     = true
  /\ (forall tech,
         In tech (Project.technologies project) ->
         includes ("<span class=" ++ dq ++ "tech-tag" ++ dq ++ ">"
                   ++ escapeHTML tech ++ "</span>") html = true).
Proof.
  intros Hok Hin.
  destruct (card_in_document portfolio html project Hok Hin)
    as (title & description & url & -> & -> & -> & Hcard).
  simpl toString.
  match type of Hcard with
  | forall x, includes x (card_layout ?t ?d ?ts ?u ?i) = true -> _ =>
      destruct (card_layout_tags t d ts u i) as (H3 & Hp & Ha);
      pose proof (card_layout_technology t d ts u i) as Htech
  end.
  repeat split; try (now apply Hcard).
  intros tech Htin. apply Hcard, Htech. now apply in_map.
Qed.

Lemma generateHTML_project_card_witness :
  includes "<h3>Test Project</h3>" (document alice_one) = true
  /\ includes "<p>A sample project</p>" (document alice_one) = true
  /\ includes ("<a href=" ++ dq ++ "https://project.com" ++ dq ++ " target="
               ++ dq ++ "_blank" ++ dq ++ " rel=" ++ dq
               ++ "noopener noreferrer" ++ dq ++ ">View Project</a>")
       (document alice_one) = true
  /\ includes ("<span class=" ++ dq ++ "tech-tag" ++ dq ++ ">React</span>")
       (document alice_one) = true.
Proof.
  destruct (generateHTML_project_card alice_one (document alice_one)
              test_project eq_refl (or_introl eq_refl))
    as (H3 & Hp & Ha & Htech).
  split; [exact H3|]. split; [exact Hp|]. split; [exact Ha|].
  apply (Htech "React"). now left.
Defined.

(** X19. A project with a non-empty image url is shown with an image whose
    source is the escaped url and whose alternative text is the escaped
    title of the project. *)
Theorem generateHTML_project_image portfolio html project image :
  snd (generateHTML portfolio) = Ok html ->
  In project (Portfolio.projects portfolio) ->
  Project.imageUrl project = Some image ->
  image <> EmptyString ->
  includes ("<img src=" ++ dq ++ escapeHTML image ++ dq ++ " alt=" ++ dq
            ++ escapeHTML (toString (Project.title project)) ++ dq ++ ">")
    html = true.
Proof.
  intros Hok Hin Himage Hne.
  destruct (card_in_document portfolio html project Hok Hin)
    as (title & description & url & -> & _ & _ & Hcard).
  simpl toString. apply Hcard. rewrite Himage. simpl option_map.
  apply card_layout_image. rewrite escapeHTML_nonempty.
  now destruct image.
Qed.

Lemma generateHTML_project_image_witness :
  includes ("<img src=" ++ dq ++ "https://image.com/p.jpg" ++ dq ++ " alt="
            ++ dq ++ "Test Project" ++ dq ++ ">") (document alice_one)
  = true.
Proof.
  apply (generateHTML_project_image alice_one (document alice_one)
           test_project "https://image.com/p.jpg");
    [reflexivity | now left | reflexivity | discriminate].
Defined.

(** *** No image without an image url *)

Lemma opens_no_tag_cons b a s :
  opens_no_tag b (String a s)
  = (if Ascii.eqb a "<" then
       match s with
       | String c _ => negb (Ascii.eqb c b)
       | EmptyString => false
       end
     else true) && opens_no_tag b s.
Proof. reflexivity. Qed.

Lemma opens_no_tag_app b x y :
  opens_no_tag b x = true -> opens_no_tag b y = true ->
  opens_no_tag b (x ++ y) = true.
Proof.
  intros Hx Hy. induction x as [|a x IH]; [exact Hy|].
  rewrite opens_no_tag_cons in Hx. apply andb_true_iff in Hx as [Ha Hx].
  change (String a x ++ y) with (String a (x ++ y)).
  rewrite opens_no_tag_cons, (IH Hx), andb_true_r.
  destruct (Ascii.eqb a "<"); [|reflexivity].
  destruct x as [|c x]; [discriminate | exact Ha].
Qed.

Lemma opens_no_tag_entity b a : opens_no_tag b (entity a) = true.
Proof.
  unfold entity.
  destruct (Ascii.eqb a "&"); [reflexivity|].
  destruct (Ascii.eqb a "<") eqn:Hlt; [reflexivity|].
  destruct (Ascii.eqb a ">"); [reflexivity|].
  destruct (Ascii.eqb a dquote); [reflexivity|].
  destruct (Ascii.eqb a "'"); [reflexivity|].
  rewrite opens_no_tag_cons, Hlt. reflexivity.
Qed.

Lemma opens_no_tag_escapeHTML b s : opens_no_tag b (escapeHTML s) = true.
Proof.
  induction s as [|a s IH]; [reflexivity|].
  rewrite escapeHTML_cons.
  apply opens_no_tag_app; [apply opens_no_tag_entity | exact IH].
Qed.

Lemma opens_no_tag_join b parts :
  Forall (fun s => opens_no_tag b s = true) parts ->
  opens_no_tag b (join EmptyString parts) = true.
Proof.
  induction 1 as [|x parts Hx _ IH]; [reflexivity|].
  rewrite join_cons. now apply opens_no_tag_app.
Qed.

Lemma opens_no_tag_sound s :
  opens_no_tag "i" s = true -> includes "<img" s = false.
Proof.
  induction s as [|a s IH]; [reflexivity|].
  rewrite opens_no_tag_cons. intros Hs.
  apply andb_true_iff in Hs as [Ha Hs].
  change (String.prefix "<img" (String a s) || includes "<img" s = false).
  rewrite (IH Hs), orb_false_r.
  change (match ascii_dec "<" a with
          | left _ => String.prefix "img" s
          | right _ => false
          end = false).
  destruct (ascii_dec "<" a) as [<-|]; [|reflexivity].
  change (Ascii.eqb "<" "<") with true in Ha. cbv iota in Ha.
  destruct s as [|c s]; [discriminate|].
  change (match ascii_dec "i" c with
          | left _ => String.prefix "mg" s
          | right _ => false
          end = false).
  destruct (ascii_dec "i" c) as [<-|]; [discriminate | reflexivity].
Qed.

Create HintDb tags discriminated.

#[local] Hint Resolve opens_no_tag_app opens_no_tag_escapeHTML
  opens_no_tag_join : tags.
#[local] Hint Extern 1 (opens_no_tag _ _ = true) => reflexivity : tags.

Lemma opens_no_tag_techs technologies :
  Forall (fun s => opens_no_tag "i" s = true)
    (map tag_layout (map escapeHTML technologies)).
Proof.
  induction technologies as [|tech rest IH]; [constructor|].
  constructor; [|exact IH]. unfold tag_layout. auto 10 with tags.
Qed.

Lemma opens_no_tag_links links :
  Forall (fun s => opens_no_tag "i" s = true)
    (map link_layout
       (map (fun '(platform, url) => (escapeHTML platform, escapeHTML url))
          links)).
Proof.
  induction links as [|[platform url] rest IH]; [constructor|].
  constructor; [|exact IH]. unfold link_layout. auto 20 with tags.
Qed.

Lemma opens_no_tag_card project card :
  absent_or_empty (Project.imageUrl project) ->
  layout_card (escapeProject project) = Ok card ->
  opens_no_tag "i" card = true.
Proof.
  intros Himage.
  unfold layout_card, escapeProject; simpl Project.title;
    simpl Project.description; simpl Project.url; simpl Project.imageUrl;
    simpl Project.technologies.
  destruct (Project.title project) as [title|]; [|discriminate].
  destruct (Project.description project) as [description|]; [|discriminate].
  destruct (Project.url project) as [url|]; [|discriminate].
  intros [= <-]. unfold card_layout.
  pose proof (opens_no_tag_techs (Project.technologies project)).
  assert (image_layout (option_map escapeHTML (Project.imageUrl project))
            (escapeHTML title) = EmptyString) as ->
    by (destruct Himage as [-> | ->]; reflexivity).
  repeat (apply opens_no_tag_app); auto with tags.
Qed.

Lemma opens_no_tag_cards projects cards :
  Forall (fun project => absent_or_empty (Project.imageUrl project))
    projects ->
  layout_cards (map escapeProject projects) = Ok cards ->
  Forall (fun s => opens_no_tag "i" s = true) cards.
Proof.
  intros Himages. revert cards.
  induction Himages as [|project projects Himage _ IH]; intros cards.
  - intros [= <-]. constructor.
  - simpl.
    destruct (layout_card (escapeProject project)) as [card|] eqn:Hcard;
      [|discriminate].
    destruct (layout_cards (map escapeProject projects)) as [cards'|];
      [|discriminate].
    intros [= <-].
    constructor; [now apply (opens_no_tag_card project) | now apply IH].
Qed.

(** X20. When no project of the portfolio has an image url (each is absent
    or empty), the rendered document holds no [<img] tag at all. *)
Theorem generateHTML_no_image_without_url portfolio html :
  snd (generateHTML portfolio) = Ok html ->
  (forall project,
      In project (Portfolio.projects portfolio) ->
      absent_or_empty (Project.imageUrl project)) ->
  includes "<img" html = false.
Proof.
  intros Hok Himages. apply opens_no_tag_sound.
  apply generateHTML_Ok in Hok
    as (config & name & title & bio & email & cards & _ & _ & _ & _ & _
        & Hcards & links & Hsocial & ->).
  apply opens_no_tag_cards in Hcards; [|now apply Forall_forall].
  assert (opens_no_tag "i"
            (themeStyles (PortfolioConfig.theme config)) = true) as Hstyle
    by now destruct (PortfolioConfig.theme config) as [[]|].
  assert (opens_no_tag "i" links = true) as Hlinks.
  { apply layout_social_escaped in Hsocial as (strings & _ & ->).
    apply opens_no_tag_join, opens_no_tag_links. }
  unfold page_layout.
  repeat (apply opens_no_tag_app); auto with tags.
Qed.

Lemma generateHTML_no_image_without_url_witness :
  includes "<img" (document alice_other) = false.
Proof.
  apply (generateHTML_no_image_without_url alice_other
           (document alice_other) eq_refl).
  intros project [<-|[]]. right. reflexivity.
Defined.

(** *** Ids are not shown *)

Lemma layout_card_same_but_id a b :
  same_but_id a b ->
  layout_card (escapeProject a) = layout_card (escapeProject b).
Proof.
  intros (Ht & Hd & Hts & Hu & Hi). unfold layout_card, escapeProject.
  simpl. now rewrite Ht, Hd, Hts, Hu, Hi.
Qed.

Lemma layout_cards_same_but_id l l' :
  Forall2 same_but_id l l' ->
  layout_cards (map escapeProject l) = layout_cards (map escapeProject l').
Proof.
  induction 1 as [|a b l l' Hab _ IH]; [reflexivity|].
  simpl. now rewrite (layout_card_same_but_id a b Hab), IH.
Qed.

(** X21. Project ids are never shown: two portfolios with the same
    configuration whose projects agree, one by one, on everything but the
    id make [generateHTML] complete in the same way, with the same
    document. *)
Theorem generateHTML_ignores_ids portfolio portfolio' :
  Portfolio.config portfolio = Portfolio.config portfolio' ->
  Forall2 same_but_id
    (Portfolio.projects portfolio) (Portfolio.projects portfolio') ->
  snd (generateHTML portfolio) = snd (generateHTML portfolio').
Proof.
  intros Hconfig Hprojects. rewrite !generateHTML_layout. simpl snd.
  pose proof (layout_cards_same_but_id _ _ Hprojects) as Hcards.
  unfold layout, escapePortfolio; simpl Portfolio.config;
    simpl Portfolio.projects.
  rewrite <- Hconfig.
  destruct (option_map escapeConfig (Portfolio.config portfolio));
    [|reflexivity].
  destruct Hprojects as [|a b l l' Hab Hrest]; [reflexivity|].
  change (map escapeProject (a :: l))
    with (escapeProject a :: map escapeProject l) in *.
  change (map escapeProject (b :: l'))
    with (escapeProject b :: map escapeProject l') in *.
  cbv iota. now rewrite Hcards.
Qed.

Lemma generateHTML_ignores_ids_witness :
  snd (generateHTML alice_one) = snd (generateHTML alice_one_renumbered).
Proof.
  apply (generateHTML_ignores_ids alice_one alice_one_renumbered).
  - reflexivity.
  - constructor; [|constructor]. repeat split.
Defined.

(** *** Empty lists *)

Lemma card_layout_no_technologies title description url imageUrl :
  includes ("<div class=" ++ dq ++ "tech-list" ++ dq ++ "></div>")
    (card_layout title description [] url imageUrl) = true.
Proof.
  unfold card_layout.
  change (join EmptyString (map tag_layout [])) with EmptyString.
  change (EmptyString ++ ?x) with x.
  change "></div>" with (">" ++ "</div>").
  rewrite !append_assoc. locate "        ".
Qed.

(** X22. A project without technologies is shown with an empty tech list:
    the document holds [<div class="tech-list"></div>]. *)
Theorem generateHTML_no_technologies portfolio html project :
  snd (generateHTML portfolio) = Ok html ->
  In project (Portfolio.projects portfolio) ->
  Project.technologies project = [] ->
  includes ("<div class=" ++ dq ++ "tech-list" ++ dq ++ "></div>") html
  = true.
Proof.
  intros Hok Hin Hnone.
  destruct (card_in_document portfolio html project Hok Hin)
    as (title & description & url & _ & _ & _ & Hcard).
  apply Hcard. rewrite Hnone. apply card_layout_no_technologies.
Qed.

Lemma generateHTML_no_technologies_witness :
  includes ("<div class=" ++ dq ++ "tech-list" ++ dq ++ "></div>")
    (document alice_two) = true.
Proof.
  apply (generateHTML_no_technologies alice_two (document alice_two)
           script_project);
    [reflexivity | right; now left | reflexivity].
Defined.

Lemma page_layout_no_links name title style bio email cards :
  includes "<div></div>"
    (page_layout name title style bio email EmptyString cards) = true.
Proof.
  unfold page_layout.
  change (EmptyString ++ ?x) with x.
  change "<div></div>" with ("<div>" ++ "</div>").
  rewrite !append_assoc. locate "    ".
Qed.

(** X23. Without social links, whether the mapping is absent or empty, the
    header of the rendered document ends with an empty block
    [<div></div>]. *)
Theorem generateHTML_no_social_links portfolio config html :
  snd (generateHTML portfolio) = Ok html ->
  Portfolio.config portfolio = Some config ->
  PortfolioConfig.socialLinks config = None
  \/ PortfolioConfig.socialLinks config = Some [] ->
  includes "<div></div>" html = true.
Proof.
  intros Hok Hconfig Hlinks.
  apply generateHTML_Ok in Hok
    as (config' & name & title & bio & email & cards & Hc & _ & _ & _ & _
        & _ & text & Hsocial & ->).
  rewrite Hconfig in Hc. injection Hc as <-.
  destruct Hlinks as [Hlinks | Hlinks]; rewrite Hlinks in Hsocial;
    injection Hsocial as <-; apply page_layout_no_links.
Qed.

Lemma generateHTML_no_social_links_witness :
  includes "<div></div>"
    (document {| Portfolio.config := Some john;
                 Portfolio.projects := [test_project] |}) = true.
Proof.
  apply (generateHTML_no_social_links
           {| Portfolio.config := Some john;
              Portfolio.projects := [test_project] |}
           john);
    [reflexivity | reflexivity | now left].
Defined.
